(** * image-resizer: the base64 codec and the resize pipeline of [src/main.cpp]

    The development embeds the three functions of the anonymous namespace of
    [src/main.cpp] ([base64_decode], [base64_encode], [resize_jpeg]) and the
    exception-to-status mapping of the request handler in [main].

    - [std::string] is a [list ascii], [std::vector<uint8_t>] a [list byte],
      [int] and [size_t] values are [Z].
    - C++ exceptions are values of [exn]; a call yields an [outcome].
    - The Boost iterator adaptors the codec is built from
      ([transform_width], [binary_from_base64], [base64_from_binary]) are
      transcribed from the Boost.Serialization headers in [Module Boost].
    - OpenCV ([cv::imdecode], [cv::resize], [cv::imencode]) is a parameter of
      the pipeline: [Section Pipeline] abstracts over it. *)

From Stdlib Require Import String Ascii ZArith List Bool Lia.
From coqutil Require Import Byte Z.bitblast.
Import ListNotations.
Local Open Scope Z_scope.

(** ** Outcomes of a C++ call *)

(** The exception classes that can leave the functions of [main.cpp]. All of
    them derive from [std::exception]; [what] is the message. *)
Inductive exn : Type :=
| invalid_argument (what : string)      (* std::invalid_argument *)
| runtime_error (what : string)         (* std::runtime_error *)
| dataflow_exception (what : string)    (* boost::archive::iterators::dataflow_exception *)
| cv_Exception (what : string).         (* cv::Exception *)

Definition what (e : exn) : string :=
  match e with
  | invalid_argument w | runtime_error w | dataflow_exception w | cv_Exception w => w
  end.

(** [Undefined]: the call has no defined behaviour (an out-of-range erase, a
    read through a past-the-end pointer). [Unfinished]: a loop of the model
    used up its step budget; the budgets below are proved sufficient. *)
Inductive outcome (A : Type) : Type :=
| Returns (a : A)
| Throws (e : exn)
| Undefined
| Unfinished.
Arguments Returns {A} a.
Arguments Throws {A} e.
Arguments Undefined {A}.
Arguments Unfinished {A}.

Definition bind {A B} (m : outcome A) (k : A -> outcome B) : outcome B :=
  match m with
  | Returns a => k a
  | Throws e => Throws e
  | Undefined => Undefined
  | Unfinished => Unfinished
  end.

Notation "x <- m ;; k" := (bind m (fun x => k))
  (at level 61, m at next level, right associativity).
Notation "' pat <- m ;; k" := (bind m (fun x => match x with pat => k end))
  (at level 61, pat pattern, m at next level, right associativity).

(** [try { body } catch (const std::exception& e) { handler }] *)
Definition try_catch {A} (body : outcome A) (handler : exn -> outcome A) : outcome A :=
  match body with
  | Throws e => handler e
  | r => r
  end.

(** ** Characters and bytes as integers *)

Definition Z_of_ascii (c : ascii) : Z := Z.of_N (N_of_ascii c).
Definition ascii_of_Z (z : Z) : ascii := ascii_of_N (Z.to_N (z mod 256)).

Definition std_string : Type := list ascii.
Definition str (s : string) : std_string := list_ascii_of_string s.

(** ** The Boost iterator adaptors *)

Module Boost.

(** [dataflow_exception::what()] for code [invalid_base64_character]. *)
Definition invalid_base64_character : exn :=
  dataflow_exception "attempt to decode a value not in base64 char set".

(** [detail::to_6_bit::lookup_table] of [binary_from_base64.hpp]. *)
Definition to_6_bit_table : list Z :=
  [ -1;-1;-1;-1;-1;-1;-1;-1;-1;-1;-1;-1;-1;-1;-1;-1;
    -1;-1;-1;-1;-1;-1;-1;-1;-1;-1;-1;-1;-1;-1;-1;-1;
    -1;-1;-1;-1;-1;-1;-1;-1;-1;-1;-1;62;-1;-1;-1;63;
    52;53;54;55;56;57;58;59;60;61;-1;-1;-1; 0;-1;-1;
    -1; 0; 1; 2; 3; 4; 5; 6; 7; 8; 9;10;11;12;13;14;
    15;16;17;18;19;20;21;22;23;24;25;-1;-1;-1;-1;-1;
    -1;26;27;28;29;30;31;32;33;34;35;36;37;38;39;40;
    41;42;43;44;45;46;47;48;49;50;51;-1;-1;-1;-1;-1 ].

(** [detail::to_6_bit::operator()]: characters above 127 and characters
    whose table entry is -1 raise [dataflow_exception]. *)
Definition to_6_bit (t : ascii) : outcome Z :=
  let value :=
    if Z_of_ascii t <=? 127
    then nth (Z.to_nat (Z_of_ascii t)) to_6_bit_table (-1)
    else -1 in
  if value =? -1 then Throws invalid_base64_character else Returns value.

(** [detail::from_6_bit::lookup_table] of [base64_from_binary.hpp]. *)
Definition from_6_bit_table : std_string :=
  str "ABCDEFGHIJKLMNOPQRSTUVWXYZabcdefghijklmnopqrstuvwxyz0123456789+/".

(** [detail::from_6_bit::operator()], with its [BOOST_ASSERT(t < 64)]. *)
Definition from_6_bit (t : Z) : outcome ascii :=
  if t <? 64
  then Returns (nth (Z.to_nat t) from_6_bit_table zero)
  else Undefined.

(** [transform_width<Base, BitsOut, BitsIn>]. The underlying iterator is
    the list of elements it has yet to deliver; [next] is
    [*this->base_reference()++]. [m_buffer_out] holds the bit pattern of
    the 8-bit [CharType]. *)
Section TransformWidth.
Context {Elt : Type}.
Variable next : list Elt -> outcome (Z * list Elt).
Variables BitsOut BitsIn : Z.

Record transform_width : Type := mk_transform_width {
  base_reference : list Elt;
  m_buffer_out_full : bool;
  m_buffer_out : Z;
  m_buffer_in : Z;
  m_remaining_bits : Z;
  m_end_of_sequence : bool
}.

(** The constructor [transform_width(T start)]. *)
Definition make (start : list Elt) : transform_width :=
  mk_transform_width start false 0 0 0 false.

(** The [do { ... } while (0 < missing_bits)] of [fill()]. Every round
    moves at least one bit, so [BitsOut] rounds always suffice. *)
Fixpoint fill_loop (budget : nat) (it : transform_width) (missing_bits : Z)
  : outcome transform_width :=
  match budget with
  | O => Unfinished
  | S budget' =>
      it <- (if m_remaining_bits it =? 0 then
               if m_end_of_sequence it then
                 Returns (mk_transform_width (base_reference it) (m_buffer_out_full it)
                            (m_buffer_out it) 0 missing_bits (m_end_of_sequence it))
               else
                 '(c, rest) <- next (base_reference it) ;;
                 Returns (mk_transform_width rest (m_buffer_out_full it)
                            (m_buffer_out it) c BitsIn (m_end_of_sequence it))
             else Returns it) ;;
      let i := Z.min missing_bits (m_remaining_bits it) in
      let j := Z.shiftr (m_buffer_in it) (m_remaining_bits it - i) in
      let j := Z.land j (Z.shiftl 1 i - 1) in
      let out := Z.shiftl (m_buffer_out it) i mod 256 in
      let out := Z.lor out j mod 256 in
      let missing_bits := missing_bits - i in
      let it := mk_transform_width (base_reference it) (m_buffer_out_full it)
                  out (m_buffer_in it) (m_remaining_bits it - i)
                  (m_end_of_sequence it) in
      if 0 <? missing_bits then fill_loop budget' it missing_bits
      else Returns it
  end.

Definition fill (it : transform_width) : outcome transform_width :=
  let it := mk_transform_width (base_reference it) (m_buffer_out_full it)
              0 (m_buffer_in it) (m_remaining_bits it) (m_end_of_sequence it) in
  it <- fill_loop (Z.to_nat BitsOut) it BitsOut ;;
  Returns (mk_transform_width (base_reference it) true (m_buffer_out it)
             (m_buffer_in it) (m_remaining_bits it) (m_end_of_sequence it)).

(** [dereference()]: the value and the iterator after the lazy fill. *)
Definition dereference (it : transform_width) : outcome (Z * transform_width) :=
  it <- (if m_buffer_out_full it then Returns it else fill it) ;;
  Returns (m_buffer_out it, it).

Definition increment (it : transform_width) : transform_width :=
  mk_transform_width (base_reference it) false (m_buffer_out it)
    (m_buffer_in it) (m_remaining_bits it) (m_end_of_sequence it).

(** [equal_impl(rhs)] against the end iterator, whose underlying
    iterator has nothing left to deliver. It may set
    [m_end_of_sequence] on the left operand. *)
Definition equal_end (it : transform_width) : bool * transform_width :=
  let at_end := match base_reference it with [] => true | _ => false end in
  if BitsIn <? BitsOut then (at_end, it)
  else if at_end then
    (m_remaining_bits it =? 0,
     mk_transform_width (base_reference it) (m_buffer_out_full it) (m_buffer_out it)
       (m_buffer_in it) (m_remaining_bits it) true)
  else (false, it).

(** The range constructors of [std::vector] and [std::string] for input
    iterators are a loop that, while [first != last], appends the
    dereferenced [first] and increments it. [functor] is what lies between
    the value [transform_width] yields and the element stored: the functor
    of an enclosing [transform_iterator], or the conversion to the
    container's element type. *)
Context {Out : Type}.
Variable functor : Z -> outcome Out.

Fixpoint collect (budget : nat) (first : transform_width) : outcome (list Out) :=
  match budget with
  | O => Unfinished
  | S budget' =>
      let '(stop, first) := equal_end first in
      if stop then Returns []
      else
        '(v, first) <- dereference first ;;
        x <- functor v ;;
        rest <- collect budget' (increment first) ;;
        Returns (x :: rest)
  end.
End TransformWidth.

(** [*it++] on [binary_from_base64<std::string::const_iterator>]. At the
    end of the string the read dereferences [clean.end()], which has no
    defined behaviour. *)
Definition next_6_bit (s : std_string) : outcome (Z * std_string) :=
  match s with
  | [] => Undefined
  | c :: rest => v <- to_6_bit c ;; Returns (v, rest)
  end.

(** [*p++] on [const unsigned char*]; reading at [data + len] is outside
    the array. *)
Definition next_byte (p : list byte) : outcome (Z * list byte) :=
  match p with
  | [] => Undefined
  | b :: rest => Returns (byte.unsigned b, rest)
  end.

(** [boost::is_space()] under the classic locale: [std::isspace]. *)
Definition is_space (c : ascii) : bool :=
  (Z_of_ascii c =? 32) || ((9 <=? Z_of_ascii c) && (Z_of_ascii c <=? 13)).

Fixpoint trim_left (s : std_string) : std_string :=
  match s with
  | c :: rest => if is_space c then trim_left rest else s
  | [] => []
  end.

Definition trim_right (s : std_string) : std_string := rev (trim_left (rev s)).

(** [boost::trim]: [trim_right_if] followed by [trim_left_if]. *)
Definition trim (s : std_string) : std_string := trim_left (trim_right s).

End Boost.

(** ** The text codec of [main.cpp] *)

Definition LF : ascii := "010"%char.
Definition CR : ascii := "013"%char.
Definition pad : ascii := "="%char.

(** [s.erase(std::remove(s.begin(), s.end(), c), s.end())] *)
Definition erase_remove (s : std_string) (c : ascii) : std_string :=
  filter (fun x => negb (Ascii.eqb x c)) s.

Definition size {A} (v : list A) : Z := Z.of_nat (length v).
Definition empty {A} (v : list A) : bool := match v with [] => true | _ => false end.
Definition at_ (s : std_string) (i : Z) : ascii := nth (Z.to_nat i) s zero.

(** [v.erase(v.end() - n, v.end())]: defined only when the vector holds at
    least [n] elements. *)
Definition erase_tail {A} (v : list A) (n : Z) : outcome (list A) :=
  if n <=? size v then Returns (firstn (Z.to_nat (size v - n)) v) else Undefined.

(** [transform_width<binary_from_base64<std::string::const_iterator>, 8, 6>]
    collected into a [std::vector<uint8_t>]. *)
Definition decode_range (clean : std_string) : outcome (list byte) :=
  Boost.collect Boost.next_6_bit 8 6 (fun v => Returns (byte.of_Z v))
    (S (length clean)) (Boost.make clean).

(** [base64_from_binary<transform_width<const unsigned char*, 6, 8>>]
    collected into a [std::string]. *)
Definition encode_range (data : list byte) : outcome std_string :=
  Boost.collect Boost.next_byte 6 8 Boost.from_6_bit
    (S (2 * length data)) (Boost.make data).

Definition base64_decode (encoded : std_string) : outcome (list byte) :=
  try_catch
    (let clean := encoded in
     let clean := Boost.trim clean in
     let clean := erase_remove clean LF in
     let clean := erase_remove clean CR in
     if empty clean then Returns []
     else
       let padding := 0 in
       let padding :=
         if negb (empty clean) then
           let padding :=
             if Ascii.eqb (at_ clean (size clean - 1)) pad then padding + 1 else padding in
           if (size clean >? 1) && Ascii.eqb (at_ clean (size clean - 2)) pad
           then padding + 1 else padding
         else padding in
       result <- decode_range clean ;;
       erase_tail result padding)
    (fun e => Throws (runtime_error (what e))).

Definition base64_encode (data : list byte) : outcome std_string :=
  let len := size data in
  result <- encode_range data ;;
  let padding := (3 - len mod 3) mod 3 in
  Returns (result ++ repeat pad (Z.to_nat padding)).

(** ** OpenCV, as far as [resize_jpeg] uses it *)

(** [cv::Mat] with [empty()], [cols] and [rows], and the three calls of
    [resize_jpeg]. Each of them is a library call that may throw.
    [resize src dsize interpolation] is [cv::resize(src, dst, dsize, 0, 0,
    interpolation)]; [imencode ext img params] yields the flag the call
    returns and the buffer it fills. *)
Class OpenCV : Type := {
  Mat : Type;
  Mat_empty : Mat -> bool;
  Mat_cols : Mat -> Z;
  Mat_rows : Mat -> Z;
  imdecode : list byte -> Z -> outcome Mat;
  resize : Mat -> Z * Z -> Z -> outcome Mat;
  imencode : string -> Mat -> list Z -> outcome (bool * list byte)
}.

(** Enumerators of [opencv2/imgcodecs.hpp] and [opencv2/imgproc.hpp]. *)
Definition IMREAD_COLOR : Z := 1.
Definition INTER_AREA : Z := 3.
Definition IMWRITE_JPEG_QUALITY : Z := 1.
Definition IMWRITE_JPEG_OPTIMIZE : Z := 3.

(** ** The pipeline [resize_jpeg] *)

(** The stages of [resize_jpeg], in the order of its statements. The log of
    stages entered is ghost state: it records which statements a run reached. *)
Inductive stage : Type :=
| ValidateDimensions | TextDecode | EmptyCheck | ImageDecode
| Resample | ImageEncode | TextEncode.

Definition run (A : Type) : Type := (list stage * outcome A)%type.

Definition at_stage {A} (st : stage) (m : outcome A) : run A := ([st], m).

Definition and_then {A B} (r : run A) (k : A -> run B) : run B :=
  match r with
  | (log, Returns a) => let '(log', b) := k a in (log ++ log', b)
  | (log, Throws e) => (log, Throws e)
  | (log, Undefined) => (log, Undefined)
  | (log, Unfinished) => (log, Unfinished)
  end.

Notation "x <~ r ;;; k" := (and_then r (fun x => k))
  (at level 61, r at next level, right associativity).

(** The two guards at the head of [resize_jpeg]. *)
Definition check_dimensions (target_width target_height : Z) : outcome unit :=
  if (target_width <=? 0) || (target_height <=? 0) then
    Throws (invalid_argument "Target dimensions must be positive integers")
  else if (target_width >? 65500) || (target_height >? 65500) then
    Throws (invalid_argument "Target dimensions exceed maximum JPEG size")
  else Returns tt.

Definition encode_params : list Z :=
  [IMWRITE_JPEG_QUALITY; 85; IMWRITE_JPEG_OPTIMIZE; 1].

Section Pipeline.
Context {cv : OpenCV}.

Definition resize_jpeg_run (input_base64 : std_string) (target_width target_height : Z)
  : run std_string :=
  _ <~ at_stage ValidateDimensions (check_dimensions target_width target_height) ;;;
  jpeg_data <~ at_stage TextDecode (base64_decode input_base64) ;;;
  _ <~ at_stage EmptyCheck
         (if empty jpeg_data
          then Throws (invalid_argument "Invalid or empty base64 input")
          else Returns tt) ;;;
  input_image <~ at_stage ImageDecode
         (input_image <- imdecode jpeg_data IMREAD_COLOR ;;
          if Mat_empty input_image
          then Throws (runtime_error
                 "Failed to decode JPEG image - invalid format or corrupted data")
          else Returns input_image) ;;;
  resized_image <~ at_stage Resample
         (resize input_image (target_width, target_height) INTER_AREA) ;;;
  output_buffer <~ at_stage ImageEncode
         ('(encode_success, output_buffer) <-
             imencode ".jpg" resized_image encode_params ;;
          if negb encode_success || empty output_buffer
          then Throws (runtime_error "Failed to encode resized image to JPEG")
          else Returns output_buffer) ;;;
  at_stage TextEncode (base64_encode output_buffer).

Definition resize_jpeg (input_base64 : std_string) (target_width target_height : Z)
  : outcome std_string :=
  snd (resize_jpeg_run input_base64 target_width target_height).

Definition stages_entered (input_base64 : std_string) (target_width target_height : Z)
  : list stage :=
  fst (resize_jpeg_run input_base64 target_width target_height).

(** ** The request handler of [main], from the call of [resize_jpeg] on:
    the status set by [req->response.result] and the message of the body. *)
Record response : Type := mk_response { result : Z; message : string }.

Definition on_resize_image (input_jpeg : std_string) (desired_width desired_height : Z)
  : outcome response :=
  match resize_jpeg input_jpeg desired_width desired_height with
  | Returns _ => Returns (mk_response 200 "success")
  | Throws (invalid_argument w) =>
      Returns (mk_response 400 (String.append "Invalid input: " w))
  | Throws e =>
      Returns (mk_response 500 (String.append "Internal server error: " (what e)))
  | Undefined => Undefined
  | Unfinished => Unfinished
  end.
End Pipeline.

(** ** Reference definitions used by the statements *)

(** What one round of [fill_loop] leaves in [m_buffer_out]: [i] bits of the
    [r] bits still unread in [x], appended to [out]. *)
Definition take (out x r i : Z) : Z :=
  Z.lor (Z.shiftl out i mod 256)
        (Z.land (Z.shiftr x (r - i)) (Z.shiftl 1 i - 1)) mod 256.

(** The base64 alphabet of RFC 4648, table 1. *)
Definition alphabet (v : Z) : ascii := nth (Z.to_nat v) Boost.from_6_bit_table zero.

(** The 6-bit groups of a byte sequence, the last group completed with zero
    bits (RFC 4648, section 4). *)
Fixpoint sextets (data : list byte) : list Z :=
  match data with
  | a :: b :: c :: rest =>
      let a := byte.unsigned a in
      let b := byte.unsigned b in
      let c := byte.unsigned c in
      a / 4 :: a mod 4 * 16 + b / 16 :: b mod 16 * 4 + c / 64 :: c mod 64
        :: sextets rest
  | [a; b] =>
      let a := byte.unsigned a in
      let b := byte.unsigned b in
      [a / 4; a mod 4 * 16 + b / 16; b mod 16 * 4]
  | [a] => let a := byte.unsigned a in [a / 4; a mod 4 * 16]
  | [] => []
  end.

(** Number of [=] that complete the last quantum: 0, 1 or 2. *)
Definition pad_count (data : list byte) : nat :=
  match (length data mod 3)%nat with
  | 1%nat => 2%nat
  | 2%nat => 1%nat
  | _ => 0%nat
  end.

(** The standard padded representation of RFC 4648. *)
Definition rfc4648_encode (data : list byte) : std_string :=
  map alphabet (sextets data) ++ repeat pad (pad_count data).

(** The characters [to_6_bit] accepts. *)
Definition accepted (c : ascii) : bool :=
  match Boost.to_6_bit c with Returns _ => true | _ => false end.

(** The string [base64_decode] hands to the iterators. *)
Definition cleaned (encoded : std_string) : std_string :=
  erase_remove (erase_remove (Boost.trim encoded) LF) CR.

(** The value [to_6_bit] yields for an accepted character. *)
Definition sextet_of (c : ascii) : Z :=
  match Boost.to_6_bit c with Returns v => v | _ => 0 end.

(** The bytes that 6-bit groups spell; bits left over after the last whole
    byte are dropped. *)
Fixpoint octets (vs : list Z) : list Z :=
  match vs with
  | v0 :: v1 :: v2 :: v3 :: rest =>
      v0 * 4 + v1 / 16 :: v1 mod 16 * 16 + v2 / 4 :: v2 mod 4 * 64 + v3
        :: octets rest
  | [v0; v1; v2] => [v0 * 4 + v1 / 16; v1 mod 16 * 16 + v2 / 4]
  | [v0; v1] => [v0 * 4 + v1 / 16]
  | _ => []
  end.

(** The count [base64_decode] keeps in [padding] for a non-empty [clean]. *)
Definition padding_of (clean : std_string) : Z :=
  (if Ascii.eqb (at_ clean (size clean - 1)) pad then 1 else 0)
  + (if (size clean >? 1) && Ascii.eqb (at_ clean (size clean - 2)) pad then 1 else 0).

(** A string without whitespace. *)
Definition plain (s : std_string) : Prop := Forall (fun c => Boost.is_space c = false) s.

(** The dimension pairs the two guards of [resize_jpeg] let through. *)
Definition dimensions_ok (w h : Z) : Prop := 0 < w <= 65500 /\ 0 < h <= 65500.

(** The ways a call can fail to return, and the outcome each of them is,
    at any result type. *)
Inductive failure : Type :=
| Thrown (e : exn)
| NoDefinedBehaviour
| BudgetExhausted.

Definition fails {A} (f : failure) : outcome A :=
  match f with
  | Thrown e => Throws e
  | NoDefinedBehaviour => Undefined
  | BudgetExhausted => Unfinished
  end.

(** The statements of [resize_jpeg], in program order. *)
Definition pipeline_order : list stage :=
  [ValidateDimensions; TextDecode; EmptyCheck; ImageDecode; Resample; ImageEncode;
   TextEncode].

(** [inserted P s s']: [s'] is [s] with characters satisfying [P] inserted
    at arbitrary positions. *)
Inductive inserted (P : ascii -> Prop) : std_string -> std_string -> Prop :=
| inserted_nil : inserted P [] []
| inserted_keep c s s' : inserted P s s' -> inserted P (c :: s) (c :: s')
| inserted_add c s s' : P c -> inserted P s s' -> inserted P s (c :: s').

Definition whitespace (c : ascii) : Prop := Boost.is_space c = true.
Definition line_break (c : ascii) : Prop := c = LF \/ c = CR.

(** A small executable stand-in for OpenCV, for running the pipeline on
    concrete inputs: an image is its (cols, rows); the image format is two
    bytes, cols then rows; [resize] checks the two assertions of
    [cv::resize] (source and target size not empty). *)
Definition toy_empty (m : Z * Z) : bool := (fst m =? 0) || (snd m =? 0).

Definition ToyCV : OpenCV := {|
  Mat := Z * Z;
  Mat_empty := toy_empty;
  Mat_cols := fst;
  Mat_rows := snd;
  imdecode buf _ :=
    match buf with
    | [c; r] => Returns (byte.unsigned c, byte.unsigned r)
    | _ => Returns (0, 0)
    end;
  resize src dsize _ :=
    if toy_empty src || (fst dsize <=? 0) || (snd dsize <=? 0)
    then Throws (cv_Exception "(-215:Assertion failed) in function resize")
    else Returns dsize;
  imencode _ img _ :=
    if (0 <? fst img) && (fst img <? 256) && (0 <? snd img) && (snd img <? 256)
    then Returns (true, [byte.of_Z (fst img); byte.of_Z (snd img)])
    else Returns (false, [])
|}.

(** The two [erase]/[remove] statements of [base64_decode] on their own. *)
Definition strip (s : std_string) : std_string := erase_remove (erase_remove s LF) CR.

(** The bytes the characters of a cleaned string spell, before the bytes
    that stem from padding are erased. *)
Definition decoded (clean : std_string) : list byte :=
  map byte.of_Z (octets (map sextet_of clean)).

(** The cleaned string made of two padding characters and nothing else. *)
Definition two_pads (clean : std_string) : bool :=
  match clean with
  | [a; b] => Ascii.eqb a pad && Ascii.eqb b pad
  | _ => false
  end.

(** The message of the only exception that leaves [base64_decode]. *)
Definition codec_error : exn :=
  runtime_error "attempt to decode a value not in base64 char set".

(** A character that may stand unescaped inside a JSON string (RFC 8259,
    section 7): not a control character, not the quotation mark, not the
    reverse solidus. The handler of [main] pastes [output_jpeg] between two
    quotation marks without escaping. *)
Definition json_plain (c : ascii) : bool :=
  (32 <=? Z_of_ascii c) && (Z_of_ascii c <? 127)
  && negb (Ascii.eqb c "034"%char) && negb (Ascii.eqb c "092"%char).

(** The iterator states and loops of the two directions. *)
Abbreviation enc_it := (@Boost.mk_transform_width Init.Byte.byte).
Abbreviation enc_collect := (Boost.collect Boost.next_byte 6 8 Boost.from_6_bit).
Abbreviation dec_it := (@Boost.mk_transform_width ascii).
Abbreviation dec_collect :=
  (Boost.collect Boost.next_6_bit 8 6 (fun v => Returns (byte.of_Z v))).

(** The integers [0 .. n-1], for checks by enumeration. *)
Definition below (n : nat) : list Z := map Z.of_nat (seq 0 n).

Definition bytes_of (s : string) : list byte := map byte_of_ascii (str s).

Example decode_hello :
  base64_decode (str "SGVsbG8sIFdvcmxkIQ==") = Returns (bytes_of "Hello, World!").
Proof. vm_compute. reflexivity. Qed.

Example encode_hello :
  base64_encode (bytes_of "Hello, World!") = Returns (str "SGVsbG8sIFdvcmxkIQ==").
Proof. vm_compute. reflexivity. Qed.

Example decode_hello_linebreaks :
  base64_decode (str "SGVsbG8s" ++ [LF] ++ str "IFdvcmxk" ++ [LF] ++ str "IQ==")
  = Returns (bytes_of "Hello, World!").
Proof. vm_compute. reflexivity. Qed.

Example decode_garbage :
  base64_decode (str "not-valid-base64!@#$")
  = Throws (runtime_error "attempt to decode a value not in base64 char set").
Proof. vm_compute. reflexivity. Qed.

(** * Properties *)

(** ** Checks by enumeration *)

Lemma forall_below (P : Z -> bool) (n : nat) :
  forallb P (below n) = true -> forall z, 0 <= z < Z.of_nat n -> P z = true.
Proof.
  intros H z Hz. rewrite forallb_forall in H. apply H.
  unfold below. rewrite <- (Z2Nat.id z) by lia.
  apply in_map, in_seq. lia.
Qed.

Lemma forall_below2 (P : Z -> Z -> bool) (n m : nat) :
  forallb (fun x => forallb (P x) (below m)) (below n) = true ->
  forall x y, 0 <= x < Z.of_nat n -> 0 <= y < Z.of_nat m -> P x y = true.
Proof.
  intros H x y Hx Hy.
  apply (forall_below (P x) m); [|assumption].
  apply (forall_below (fun x => forallb (P x) (below m)) n H x Hx).
Qed.

Ltac enum1 n x Hx :=
  match goal with
  | |- ?l = ?r =>
      let P := eval pattern x in (Z.eqb l r) in
      match P with
      | ?F x =>
          apply Z.eqb_eq; change (F x = true);
          apply (forall_below F n); [vm_compute; reflexivity | exact Hx]
      end
  end.

Ltac enum2 n m x y Hx Hy :=
  match goal with
  | |- ?l = ?r =>
      let P := eval pattern x, y in (Z.eqb l r) in
      match P with
      | ?F x y =>
          apply Z.eqb_eq; change (F x y = true);
          apply (forall_below2 F n m); [vm_compute; reflexivity | exact Hx | exact Hy]
      end
  end.

(** ** The bits [fill] moves, as arithmetic *)

Lemma take_e0 a : 0 <= a < 256 -> take 0 a 8 6 = a / 4.
Proof. intros Ha. enum1 256%nat a Ha. Qed.

Lemma take_e1 a b :
  0 <= a < 256 -> 0 <= b < 256 -> take (take 0 a 2 2) b 8 4 = a mod 4 * 16 + b / 16.
Proof. intros Ha Hb. enum2 256%nat 256%nat a b Ha Hb. Qed.

Lemma take_e2 a b :
  0 <= a < 256 -> 0 <= b < 256 -> take (take 0 a 4 4) b 8 2 = a mod 16 * 4 + b / 64.
Proof. intros Ha Hb. enum2 256%nat 256%nat a b Ha Hb. Qed.

Lemma take_e3 a : 0 <= a < 256 -> take 0 a 6 6 = a mod 64.
Proof. intros Ha. enum1 256%nat a Ha. Qed.

Lemma take_e1_end a : 0 <= a < 256 -> take (take 0 a 2 2) 0 4 4 = a mod 4 * 16.
Proof. intros Ha. enum1 256%nat a Ha. Qed.

Lemma take_e2_end a : 0 <= a < 256 -> take (take 0 a 4 4) 0 2 2 = a mod 16 * 4.
Proof. intros Ha. enum1 256%nat a Ha. Qed.

Lemma take_d0 v w :
  0 <= v < 64 -> 0 <= w < 64 -> take (take 0 v 6 6) w 6 2 = v * 4 + w / 16.
Proof. intros Hv Hw. enum2 64%nat 64%nat v w Hv Hw. Qed.

Lemma take_d1 v w :
  0 <= v < 64 -> 0 <= w < 64 -> take (take 0 v 4 4) w 6 4 = v mod 16 * 16 + w / 4.
Proof. intros Hv Hw. enum2 64%nat 64%nat v w Hv Hw. Qed.

Lemma take_d2 v w :
  0 <= v < 64 -> 0 <= w < 64 -> take (take 0 v 2 2) w 6 6 = v mod 4 * 64 + w.
Proof. intros Hv Hw. enum2 64%nat 64%nat v w Hv Hw. Qed.

(** ** The alphabet *)

Lemma from_6_bit_alphabet v : v < 64 -> Boost.from_6_bit v = Returns (alphabet v).
Proof.
  intros H. unfold Boost.from_6_bit, alphabet.
  destruct (Z.ltb_spec v 64); [reflexivity | lia].
Qed.

Lemma to_6_bit_alphabet v : 0 <= v < 64 -> Boost.to_6_bit (alphabet v) = Returns v.
Proof.
  intros Hv.
  pose (P := fun v => match Boost.to_6_bit (alphabet v) with
                      | Returns w => w =? v
                      | _ => false
                      end).
  assert (H : P v = true)
    by (apply (forall_below P 64%nat); [vm_compute; reflexivity | exact Hv]).
  unfold P in H. destruct (Boost.to_6_bit (alphabet v)); try discriminate.
  apply Z.eqb_eq in H. congruence.
Qed.

Lemma to_6_bit_pad : Boost.to_6_bit pad = Returns 0.
Proof. reflexivity. Qed.

Lemma alphabet_plain v :
  0 <= v < 64 ->
  Boost.is_space (alphabet v) = false /\ Ascii.eqb (alphabet v) pad = false.
Proof.
  intros Hv.
  pose (P := fun v => negb (Boost.is_space (alphabet v))
                      && negb (Ascii.eqb (alphabet v) pad)).
  assert (H : P v = true)
    by (apply (forall_below P 64%nat); [vm_compute; reflexivity | exact Hv]).
  unfold P in H. apply andb_true_iff in H. destruct H as [H1 H2].
  apply negb_true_iff in H1, H2. auto.
Qed.

(** Induction over a list three elements at a time, as both codec loops
    consume their input. *)
Lemma list_ind3 {A} (P : list A -> Prop) :
  P [] -> (forall a, P [a]) -> (forall a b, P [a; b]) ->
  (forall a b c l, P l -> P (a :: b :: c :: l)) ->
  forall l, P l.
Proof.
  intros H0 H1 H2 H3 l.
  assert (H : P l /\ (forall a, P (a :: l)) /\ (forall a b, P (a :: b :: l))).
  { induction l as [|c l [IH0 [IH1 IH2]]]; auto. }
  apply H.
Qed.

Ltac byte_ranges :=
  repeat match goal with
         | b : Init.Byte.byte |- _ =>
             lazymatch goal with
             | _ : 0 <= byte.unsigned b < 2 ^ 8 |- _ => fail
             | _ => pose proof (byte.unsigned_range b)
             end
         end.

Lemma sextets_range data : Forall (fun v => 0 <= v < 64) (sextets data).
Proof.
  induction data as [|a|a b|a b c l IH] using list_ind3; cbn [sextets];
    byte_ranges; repeat constructor; try assumption;
    Z.to_euclidean_division_equations; lia.
Qed.

(** ** [base64_encode]: the iterator pipeline computes RFC 4648 *)

Lemma enc_collect_3 f a b c rest out x :
  enc_collect (S (S (S (S f)))) (enc_it (a :: b :: c :: rest) false out x 0 false)
  = x0 <- Boost.from_6_bit (take 0 (byte.unsigned a) 8 6) ;;
    r0 <- (x1 <- Boost.from_6_bit
                   (take (take 0 (byte.unsigned a) 2 2) (byte.unsigned b) 8 4) ;;
           r1 <- (x2 <- Boost.from_6_bit
                          (take (take 0 (byte.unsigned b) 4 4) (byte.unsigned c) 8 2) ;;
                  r2 <- (x3 <- Boost.from_6_bit (take 0 (byte.unsigned c) 6 6) ;;
                         r3 <- enc_collect f
                                 (enc_it rest false (take 0 (byte.unsigned c) 6 6)
                                    (byte.unsigned c) 0 (empty rest)) ;;
                         Returns (x3 :: r3)) ;;
                  Returns (x2 :: r2)) ;;
           Returns (x1 :: r1)) ;;
    Returns (x0 :: r0).
Proof. destruct rest; reflexivity. Qed.

Lemma enc_collect_2 f a b out x :
  enc_collect (S (S (S (S f)))) (enc_it [a; b] false out x 0 false)
  = x0 <- Boost.from_6_bit (take 0 (byte.unsigned a) 8 6) ;;
    r0 <- (x1 <- Boost.from_6_bit
                   (take (take 0 (byte.unsigned a) 2 2) (byte.unsigned b) 8 4) ;;
           r1 <- (x2 <- Boost.from_6_bit (take (take 0 (byte.unsigned b) 4 4) 0 2 2) ;;
                  r2 <- Returns [] ;;
                  Returns (x2 :: r2)) ;;
           Returns (x1 :: r1)) ;;
    Returns (x0 :: r0).
Proof. reflexivity. Qed.

Lemma enc_collect_1 f a out x :
  enc_collect (S (S (S f))) (enc_it [a] false out x 0 false)
  = x0 <- Boost.from_6_bit (take 0 (byte.unsigned a) 8 6) ;;
    r0 <- (x1 <- Boost.from_6_bit (take (take 0 (byte.unsigned a) 2 2) 0 4 4) ;;
           r1 <- Returns [] ;;
           Returns (x1 :: r1)) ;;
    Returns (x0 :: r0).
Proof. reflexivity. Qed.

Lemma enc_collect_0 f out x e :
  enc_collect (S f) (enc_it [] false out x 0 e) = Returns [].
Proof. reflexivity. Qed.

Lemma enc_collect_sextets data :
  forall f out x e,
    (2 * length data < f)%nat -> (e = true -> data = []) ->
    enc_collect f (enc_it data false out x 0 e) = Returns (map alphabet (sextets data)).
Proof.
  induction data as [|a|a b|a b c l IH] using list_ind3; intros f out x e Hf He.
  - destruct f; [simpl in Hf; lia | apply enc_collect_0].
  - destruct e; [specialize (He eq_refl); discriminate|].
    do 3 (destruct f; [simpl in Hf; lia|]).
    rewrite enc_collect_1. byte_ranges.
    rewrite take_e0, take_e1_end by lia.
    rewrite !from_6_bit_alphabet by (Z.to_euclidean_division_equations; lia).
    reflexivity.
  - destruct e; [specialize (He eq_refl); discriminate|].
    do 4 (destruct f; [simpl in Hf; lia|]).
    rewrite enc_collect_2. byte_ranges.
    rewrite take_e0, take_e1, take_e2_end by lia.
    rewrite !from_6_bit_alphabet by (Z.to_euclidean_division_equations; lia).
    reflexivity.
  - destruct e; [specialize (He eq_refl); discriminate|].
    do 4 (destruct f; [simpl in Hf; lia|]).
    rewrite enc_collect_3. byte_ranges.
    rewrite take_e0, take_e1, take_e2, take_e3 by lia.
    rewrite !from_6_bit_alphabet by (Z.to_euclidean_division_equations; lia).
    cbn [bind].
    rewrite IH; [reflexivity | simpl in Hf; lia | destruct l; [reflexivity | discriminate]].
Qed.

Lemma encode_range_sextets data :
  encode_range data = Returns (map alphabet (sextets data)).
Proof. apply enc_collect_sextets; [lia | discriminate]. Qed.

Lemma pad_count_formula data :
  Z.to_nat ((3 - size data mod 3) mod 3) = pad_count data.
Proof.
  unfold pad_count, size.
  pose proof (Nat.mod_upper_bound (length data) 3 ltac:(lia)) as Hb.
  replace (Z.of_nat (length data) mod 3) with (Z.of_nat (length data mod 3))
    by (rewrite Nat2Z.inj_mod; reflexivity).
  destruct (length data mod 3)%nat as [|[|[|n]]]; try reflexivity; lia.
Qed.

Lemma base64_encode_rfc4648 data :
  base64_encode data = Returns (rfc4648_encode data).
Proof.
  unfold base64_encode, rfc4648_encode.
  rewrite encode_range_sextets. cbn [bind].
  rewrite pad_count_formula. reflexivity.
Qed.

(** ** [base64_decode]: one element of the iterator at a time *)

Ltac fill_round :=
  cbn [bind Boost.m_buffer_out_full Boost.fill_loop Boost.m_remaining_bits
       Boost.m_end_of_sequence Boost.base_reference Boost.m_buffer_out
       Boost.m_buffer_in Z.eqb].

Section DecodeSteps.
Variable next : std_string -> outcome (Z * std_string).

Lemma deref_dec_0 s0 out x :
  Boost.dereference next 8 6 (dec_it s0 false out x 0 false)
  = '(v0, s1) <- next s0 ;;
    '(v1, s2) <- next s1 ;;
    Returns (take (take 0 v0 6 6) v1 6 2,
             dec_it s2 true (take (take 0 v0 6 6) v1 6 2) v1 4 false).
Proof.
  unfold Boost.dereference, Boost.fill. change (Z.to_nat 8) with 8%nat.
  fill_round.
  destruct (next s0) as [[v0 s1]| | |]; [|reflexivity..].
  fill_round.
  change (0 <? 8 - Z.min 8 6) with true. cbv iota.
  change (6 - Z.min 8 6 =? 0) with true. cbv iota.
  destruct (next s1) as [[v1 s2]| | |]; reflexivity.
Qed.

Lemma deref_dec_4 s0 out x :
  Boost.dereference next 8 6 (dec_it s0 false out x 4 false)
  = '(v, s1) <- next s0 ;;
    Returns (take (take 0 x 4 4) v 6 4,
             dec_it s1 true (take (take 0 x 4 4) v 6 4) v 2 false).
Proof.
  unfold Boost.dereference, Boost.fill. change (Z.to_nat 8) with 8%nat.
  fill_round.
  change (0 <? 8 - Z.min 8 4) with true. cbv iota.
  change (4 - Z.min 8 4 =? 0) with true. cbv iota.
  destruct (next s0) as [[v s1]| | |]; reflexivity.
Qed.

Lemma deref_dec_2 s0 out x :
  Boost.dereference next 8 6 (dec_it s0 false out x 2 false)
  = '(v, s1) <- next s0 ;;
    Returns (take (take 0 x 2 2) v 6 6,
             dec_it s1 true (take (take 0 x 2 2) v 6 6) v 0 false).
Proof.
  unfold Boost.dereference, Boost.fill. change (Z.to_nat 8) with 8%nat.
  fill_round.
  change (0 <? 8 - Z.min 8 2) with true. cbv iota.
  change (2 - Z.min 8 2 =? 0) with true. cbv iota.
  destruct (next s0) as [[v s1]| | |]; reflexivity.
Qed.
End DecodeSteps.

Lemma to_6_bit_spec c :
  Boost.to_6_bit c
  = if accepted c then Returns (sextet_of c) else Throws Boost.invalid_base64_character.
Proof.
  unfold accepted, sextet_of, Boost.to_6_bit.
  destruct (_ =? -1); reflexivity.
Qed.

Lemma sextet_of_range c : accepted c = true -> 0 <= sextet_of c < 64.
Proof.
  destruct c as [[] [] [] [] [] [] [] []]; vm_compute; intros H;
    first [discriminate H | split; [discriminate | reflexivity]].
Qed.

Lemma dec_collect_nil f out x r :
  dec_collect (S f) (dec_it [] false out x r false) = Returns [].
Proof. reflexivity. Qed.

Lemma dec_collect_cons f c s out x r :
  dec_collect (S f) (dec_it (c :: s) false out x r false)
  = '(v, first) <- Boost.dereference Boost.next_6_bit 8 6 (dec_it (c :: s) false out x r false) ;;
    rest <- dec_collect f (Boost.increment first) ;;
    Returns (byte.of_Z v :: rest).
Proof. reflexivity. Qed.

Lemma list_ind4 {A} (P : list A -> Prop) :
  P [] -> (forall a, P [a]) -> (forall a b, P [a; b]) -> (forall a b c, P [a; b; c]) ->
  (forall a b c d l, P l -> P (a :: b :: c :: d :: l)) ->
  forall l, P l.
Proof.
  intros H0 H1 H2 H3 H4 l.
  assert (H : P l /\ (forall a, P (a :: l)) /\ (forall a b, P (a :: b :: l))
              /\ (forall a b c, P (a :: b :: c :: l))).
  { induction l as [|d l [IH0 [IH1 [IH2 IH3]]]]; auto. }
  apply H.
Qed.

Lemma mod4_step n : (S (S (S (S n))) mod 4 = n mod 4)%nat.
Proof.
  replace (S (S (S (S n)))) with (n + 1 * 4)%nat by lia.
  apply Nat.Div0.mod_add.
Qed.

(** One element of [dec_collect], by the number of bits still buffered. *)
Lemma dec_step_0 f c0 s out x :
  dec_collect (S f) (dec_it (c0 :: s) false out x 0 false)
  = if accepted c0 then
      match s with
      | [] => Undefined
      | c1 :: s' =>
          if accepted c1 then
            rest <- dec_collect f
                      (dec_it s' false (sextet_of c0 * 4 + sextet_of c1 / 16)
                         (sextet_of c1) 4 false) ;;
            Returns (byte.of_Z (sextet_of c0 * 4 + sextet_of c1 / 16) :: rest)
          else Throws Boost.invalid_base64_character
      end
    else Throws Boost.invalid_base64_character.
Proof.
  rewrite dec_collect_cons, deref_dec_0. cbn [Boost.next_6_bit].
  rewrite to_6_bit_spec. destruct (accepted c0) eqn:H0; [|reflexivity].
  cbn [bind]. destruct s as [|c1 s']; [reflexivity|].
  cbn [Boost.next_6_bit]. rewrite to_6_bit_spec.
  destruct (accepted c1) eqn:H1; [|reflexivity].
  cbn [bind]. rewrite take_d0 by (apply sextet_of_range; assumption).
  reflexivity.
Qed.

Lemma dec_step_4 f c s out x :
  0 <= x < 64 ->
  dec_collect (S f) (dec_it (c :: s) false out x 4 false)
  = if accepted c then
      rest <- dec_collect f
                (dec_it s false (x mod 16 * 16 + sextet_of c / 4) (sextet_of c) 2 false) ;;
      Returns (byte.of_Z (x mod 16 * 16 + sextet_of c / 4) :: rest)
    else Throws Boost.invalid_base64_character.
Proof.
  intros Hx. rewrite dec_collect_cons, deref_dec_4. cbn [Boost.next_6_bit].
  rewrite to_6_bit_spec. destruct (accepted c) eqn:H0; [|reflexivity].
  cbn [bind]. rewrite take_d1 by (try apply sextet_of_range; assumption).
  reflexivity.
Qed.

Lemma dec_step_2 f c s out x :
  0 <= x < 64 ->
  dec_collect (S f) (dec_it (c :: s) false out x 2 false)
  = if accepted c then
      rest <- dec_collect f
                (dec_it s false (x mod 4 * 64 + sextet_of c) (sextet_of c) 0 false) ;;
      Returns (byte.of_Z (x mod 4 * 64 + sextet_of c) :: rest)
    else Throws Boost.invalid_base64_character.
Proof.
  intros Hx. rewrite dec_collect_cons, deref_dec_2. cbn [Boost.next_6_bit].
  rewrite to_6_bit_spec. destruct (accepted c) eqn:H0; [|reflexivity].
  cbn [bind]. rewrite take_d2 by (try apply sextet_of_range; assumption).
  reflexivity.
Qed.

(** [decode_range] in closed form: it throws on a character [to_6_bit]
    rejects; on accepted characters it reads past the end when the length
    leaves a single character over, and otherwise returns the whole bytes
    the characters spell. *)
Lemma dec_collect_spec s :
  forall f out x,
    (length s < f)%nat ->
    dec_collect f (dec_it s false out x 0 false)
    = if forallb accepted s then
        if (length s mod 4 =? 1)%nat then Undefined
        else Returns (map byte.of_Z (octets (map sextet_of s)))
      else Throws Boost.invalid_base64_character.
Proof.
  induction s as [|c0|c0 c1|c0 c1 c2|c0 c1 c2 c3 l IH] using list_ind4;
    intros f out x Hf; cbn [length] in Hf.
  - destruct f; [lia|]. reflexivity.
  - destruct f; [lia|]. rewrite dec_step_0. cbn [forallb].
    destruct (accepted c0); reflexivity.
  - do 2 (destruct f; [lia|]). rewrite dec_step_0. cbn [forallb].
    destruct (accepted c0); [|reflexivity].
    destruct (accepted c1); reflexivity.
  - do 3 (destruct f; [lia|]). rewrite dec_step_0. cbn [forallb].
    destruct (accepted c0); [|reflexivity].
    destruct (accepted c1) eqn:H1; [|reflexivity].
    rewrite dec_step_4 by (apply sextet_of_range; assumption).
    destruct (accepted c2); reflexivity.
  - do 4 (destruct f; [lia|]). rewrite dec_step_0. cbn [forallb].
    destruct (accepted c0); [|reflexivity].
    destruct (accepted c1) eqn:H1; [|reflexivity].
    rewrite dec_step_4 by (apply sextet_of_range; assumption).
    destruct (accepted c2) eqn:H2; [|reflexivity].
    rewrite dec_step_2 by (apply sextet_of_range; assumption).
    destruct (accepted c3) eqn:H3; [|reflexivity].
    rewrite IH by lia. cbn [andb length]. rewrite mod4_step.
    destruct (forallb accepted l); [|reflexivity].
    destruct (length l mod 4 =? 1)%nat; reflexivity.
Qed.

Lemma decode_range_spec s :
  decode_range s
  = if forallb accepted s then
      if (length s mod 4 =? 1)%nat then Undefined
      else Returns (map byte.of_Z (octets (map sextet_of s)))
    else Throws Boost.invalid_base64_character.
Proof. apply dec_collect_spec. lia. Qed.

(** ** [base64_decode] in terms of the cleaned string *)

Lemma base64_decode_cleaned encoded :
  base64_decode encoded
  = try_catch
      (if empty (cleaned encoded) then Returns []
       else result <- decode_range (cleaned encoded) ;;
            erase_tail result (padding_of (cleaned encoded)))
      (fun e => Throws (runtime_error (what e))).
Proof.
  unfold base64_decode, padding_of. fold (cleaned encoded).
  destruct (cleaned encoded) as [|c l] eqn:E; [reflexivity|].
  cbn [empty negb].
  destruct (Ascii.eqb (at_ (c :: l) (size (c :: l) - 1)) pad);
    destruct ((size (c :: l) >? 1) && Ascii.eqb (at_ (c :: l) (size (c :: l) - 2)) pad);
    reflexivity.
Qed.

Lemma trim_left_plain s : plain s -> Boost.trim_left s = s.
Proof. intros [|c l Hc Hl]; [reflexivity|]. simpl. rewrite Hc. reflexivity. Qed.

Lemma plain_rev s : plain s -> plain (rev s).
Proof. intros H. apply Forall_rev. exact H. Qed.

Lemma trim_plain s : plain s -> Boost.trim s = s.
Proof.
  intros H. unfold Boost.trim, Boost.trim_right.
  rewrite (trim_left_plain (rev s)) by (apply plain_rev; exact H).
  rewrite rev_involutive. apply trim_left_plain. exact H.
Qed.

Lemma erase_remove_plain s c : plain s -> Boost.is_space c = true -> erase_remove s c = s.
Proof.
  intros H Hc. induction H as [|a l Ha Hl IH]; [reflexivity|].
  unfold erase_remove in *. simpl.
  destruct (Ascii.eqb_spec a c) as [->|_]; [congruence|].
  simpl. rewrite IH. reflexivity.
Qed.

Lemma cleaned_plain s : plain s -> cleaned s = s.
Proof.
  intros H. unfold cleaned. rewrite trim_plain by exact H.
  rewrite (erase_remove_plain s LF) by (assumption || reflexivity).
  apply erase_remove_plain; [assumption | reflexivity].
Qed.

(** ** Shape of the RFC 4648 text *)

Lemma pad_count_step a b c (l : list byte) : pad_count (a :: b :: c :: l) = pad_count l.
Proof.
  unfold pad_count. cbn [length].
  replace (S (S (S (length l)))) with (length l + 1 * 3)%nat by lia.
  rewrite Nat.Div0.mod_add. reflexivity.
Qed.

Lemma pad_count_le2 data : (pad_count data <= 2)%nat.
Proof. unfold pad_count. destruct (length data mod 3)%nat as [|[|[|n]]]; lia. Qed.

Lemma rfc4648_length data :
  (length (rfc4648_encode data) = 4 * ((length data + 2) / 3))%nat.
Proof.
  unfold rfc4648_encode. rewrite length_app, length_map, repeat_length.
  induction data as [|a|a b|a b c l IH] using list_ind3; try reflexivity.
  rewrite pad_count_step. cbn [sextets length].
  replace (S (S (S (length l))) + 2)%nat with ((length l + 2) + 1 * 3)%nat by lia.
  rewrite Nat.div_add by lia. lia.
Qed.

Lemma rfc4648_plain_chars data :
  Forall (fun c => Boost.is_space c = false /\ Ascii.eqb c pad = false)
         (map alphabet (sextets data)).
Proof.
  apply Forall_map. eapply Forall_impl; [|apply sextets_range].
  intros v Hv. apply alphabet_plain. exact Hv.
Qed.

Lemma rfc4648_plain data : plain (rfc4648_encode data).
Proof.
  unfold plain, rfc4648_encode. apply Forall_app. split.
  - eapply Forall_impl; [|apply rfc4648_plain_chars]. intros c [H _]. exact H.
  - apply Forall_forall. intros c Hc. apply repeat_spec in Hc. subst c. reflexivity.
Qed.

Lemma rfc4648_accepted data : forallb accepted (rfc4648_encode data) = true.
Proof.
  unfold rfc4648_encode. rewrite forallb_app. apply andb_true_iff. split.
  - apply forallb_forall. intros c Hc. apply in_map_iff in Hc.
    destruct Hc as [v [<- Hv]].
    pose proof (sextets_range data) as R. rewrite Forall_forall in R.
    unfold accepted. rewrite to_6_bit_alphabet by (apply R; exact Hv). reflexivity.
  - apply forallb_forall. intros c Hc. apply repeat_spec in Hc. subst c. reflexivity.
Qed.

Lemma rfc4648_sextets data :
  map sextet_of (rfc4648_encode data) = sextets data ++ repeat 0 (pad_count data).
Proof.
  unfold rfc4648_encode. rewrite map_app, map_map. f_equal.
  - pose proof (sextets_range data) as R.
    induction R as [|v l Hv Hl IH]; [reflexivity|].
    cbn [map]. rewrite IH. f_equal.
    unfold sextet_of. rewrite to_6_bit_alphabet by exact Hv. reflexivity.
  - induction (pad_count data); [reflexivity|]. cbn [repeat map]. f_equal. assumption.
Qed.

Lemma octets_sextets data :
  octets (sextets data ++ repeat 0 (pad_count data))
  = map byte.unsigned data ++ repeat 0 (pad_count data).
Proof.
  induction data as [|a|a b|a b c l IH] using list_ind3.
  - reflexivity.
  - cbn [sextets pad_count length Nat.modulo app repeat octets map].
    change (pad_count [a]) with 2%nat. cbn [sextets app repeat octets map].
    byte_ranges. repeat f_equal; Z.to_euclidean_division_equations; lia.
  - change (pad_count [a; b]) with 1%nat. cbn [sextets app repeat octets map].
    byte_ranges. repeat f_equal; Z.to_euclidean_division_equations; lia.
  - rewrite pad_count_step. cbn [sextets app octets map]. rewrite IH.
    byte_ranges. repeat f_equal; Z.to_euclidean_division_equations; lia.
Qed.

Lemma at_app_l (l r : std_string) i : 0 <= i < size l -> at_ (l ++ r) i = at_ l i.
Proof. unfold at_, size. intros H. apply app_nth1. lia. Qed.

Lemma at_app_r (l r : std_string) i : size l <= i -> at_ (l ++ r) i = at_ r (i - size l).
Proof.
  unfold at_, size. intros H. rewrite app_nth2 by lia.
  f_equal. lia.
Qed.

Lemma at_Forall (P : ascii -> Prop) (l : std_string) i :
  Forall P l -> 0 <= i < size l -> P (at_ l i).
Proof.
  unfold at_, size. intros H Hi. rewrite Forall_forall in H.
  apply H, nth_In. lia.
Qed.

Lemma sextets_length_ge2 data : data <> [] -> (2 <= length (sextets data))%nat.
Proof. destruct data as [|a [|b [|c l]]]; cbn [sextets length]; [congruence | lia..]. Qed.

Lemma padding_of_rfc4648 data :
  data <> [] -> padding_of (rfc4648_encode data) = Z.of_nat (pad_count data).
Proof.
  intros Hne. unfold rfc4648_encode.
  pose proof (sextets_length_ge2 data Hne) as Hlen.
  assert (Hbody : Forall (fun c => Ascii.eqb c pad = false) (map alphabet (sextets data))).
  { eapply Forall_impl; [|apply rfc4648_plain_chars]. intros c [_ H]. exact H. }
  set (body := map alphabet (sextets data)) in *.
  assert (Hsz : 2 <= size body) by (unfold size, body; rewrite length_map; lia).
  pose proof (pad_count_le2 data) as Hk.
  unfold padding_of.
  destruct (pad_count data) as [|[|[|k]]]; [| | |lia]; cbn [repeat].
  - rewrite app_nil_r.
    rewrite (at_Forall _ body (size body - 1) Hbody) by lia.
    rewrite (at_Forall _ body (size body - 2) Hbody) by lia.
    rewrite andb_false_r. reflexivity.
  - assert (Hs : size (body ++ [pad]) = size body + 1)
      by (unfold size; rewrite length_app; cbn [length]; lia).
    rewrite Hs.
    rewrite (at_app_r body [pad] (size body + 1 - 1)) by lia.
    replace (size body + 1 - 1 - size body) with 0 by lia.
    rewrite (at_app_l body [pad] (size body + 1 - 2)) by lia.
    rewrite (at_Forall _ body (size body + 1 - 2) Hbody) by lia.
    rewrite andb_false_r. reflexivity.
  - assert (Hs : size (body ++ [pad; pad]) = size body + 2)
      by (unfold size; rewrite length_app; cbn [length]; lia).
    rewrite Hs.
    rewrite (at_app_r body [pad; pad] (size body + 2 - 1)) by lia.
    replace (size body + 2 - 1 - size body) with 1 by lia.
    rewrite (at_app_r body [pad; pad] (size body + 2 - 2)) by lia.
    replace (size body + 2 - 2 - size body) with 0 by lia.
    destruct (Z.gtb_spec (size body + 2) 1); [reflexivity | lia].
Qed.

Lemma erase_tail_app {A} (v : list A) (z : A) (k : nat) :
  erase_tail (v ++ repeat z k) (Z.of_nat k) = Returns v.
Proof.
  unfold erase_tail, size. rewrite length_app, repeat_length.
  destruct (Z.leb_spec (Z.of_nat k) (Z.of_nat (length v + k))); [|lia].
  replace (Z.to_nat (Z.of_nat (length v + k) - Z.of_nat k)) with (length v + 0)%nat by lia.
  rewrite firstn_app_2. cbn [firstn]. rewrite app_nil_r. reflexivity.
Qed.

Lemma base64_decode_rfc4648 data : base64_decode (rfc4648_encode data) = Returns data.
Proof.
  rewrite base64_decode_cleaned, cleaned_plain by apply rfc4648_plain.
  destruct data as [|a l]; [reflexivity|].
  set (data := a :: l). assert (Hne : data <> []) by discriminate.
  clearbody data.
  assert (He : empty (rfc4648_encode data) = false).
  { pose proof (sextets_length_ge2 data Hne).
    unfold rfc4648_encode. destruct (map alphabet (sextets data)) eqn:E; [|reflexivity].
    apply (f_equal (@length _)) in E. rewrite length_map in E. cbn [length] in E. lia. }
  rewrite He, decode_range_spec, rfc4648_accepted.
  rewrite rfc4648_length.
  replace (4 * ((length data + 2) / 3))%nat with (((length data + 2) / 3) * 4)%nat by lia.
  rewrite Nat.Div0.mod_mul. cbn [Nat.eqb bind].
  rewrite rfc4648_sextets, octets_sextets, padding_of_rfc4648 by exact Hne.
  rewrite map_app, map_map.
  replace (map (fun x => byte.of_Z (byte.unsigned x)) data) with data.
  2:{ clear. induction data as [|b l IH]; [reflexivity|].
      cbn [map]. rewrite byte.of_Z_unsigned, <- IH. reflexivity. }
  assert (Hz : forall k, map byte.of_Z (repeat 0 k) = repeat (byte.of_Z 0) k)
    by (induction k; [reflexivity | cbn [repeat map]; f_equal; assumption]).
  rewrite Hz. rewrite erase_tail_app. reflexivity.
Qed.

(** C1. Round trip of the text codec: for every byte sequence [b],
    [base64_encode b] returns a string on which [base64_decode] returns
    exactly [b], whatever the length of [b] modulo 3. *)
Theorem base64_round_trip (b : list byte) :
  exists s, base64_encode b = Returns s /\ base64_decode s = Returns b.
Proof.
  exists (rfc4648_encode b). split.
  - apply base64_encode_rfc4648.
  - apply base64_decode_rfc4648.
Qed.

(** C7. [base64_encode] is total: on every byte sequence it returns, and what
    it returns is the RFC 4648 padded representation, whose length is the
    multiple of four [4 * ceil (len / 3)]; on the empty sequence it returns
    the empty string. *)
Theorem base64_encode_total (data : list byte) :
  base64_encode data = Returns (rfc4648_encode data)
  /\ length (rfc4648_encode data) = (4 * ((length data + 2) / 3))%nat
  /\ base64_encode [] = Returns [].
Proof.
  split; [apply base64_encode_rfc4648|].
  split; [apply rfc4648_length | reflexivity].
Qed.

(** ** The pipeline *)

Section PipelineFacts.
Context {cv : OpenCV}.

Lemma check_dimensions_ok w h : dimensions_ok w h -> check_dimensions w h = Returns tt.
Proof.
  intros [[H1 H2] [H3 H4]]. unfold check_dimensions.
  destruct (Z.leb_spec w 0); [lia|]. destruct (Z.leb_spec h 0); [lia|].
  destruct (Z.gtb_spec w 65500); [lia|]. destruct (Z.gtb_spec h 65500); [lia|].
  reflexivity.
Qed.

Lemma check_dimensions_bad w h :
  ~ dimensions_ok w h ->
  exists msg, check_dimensions w h = Throws (invalid_argument msg).
Proof.
  intros H. unfold check_dimensions, dimensions_ok in *.
  destruct (Z.leb_spec w 0); [eexists; reflexivity|].
  destruct (Z.leb_spec h 0); [eexists; reflexivity|].
  destruct (Z.gtb_spec w 65500); [eexists; reflexivity|].
  destruct (Z.gtb_spec h 65500); [eexists; reflexivity|].
  lia.
Qed.

Lemma resize_jpeg_bad_dimensions s w h e :
  check_dimensions w h = Throws e ->
  resize_jpeg_run s w h = ([ValidateDimensions], Throws e).
Proof. intros H. unfold resize_jpeg_run. rewrite H. reflexivity. Qed.

(** C2. The two guards of [resize_jpeg] reject exactly the pairs with a
    value [<= 0] or [> 65500]: on those [resize_jpeg] throws
    [std::invalid_argument] whatever the input string; every other pair
    passes the guards, and (65500, 65500) is among them. *)
Theorem dimension_validation (s : std_string) (w h : Z) :
  ((w <= 0 \/ h <= 0 \/ w > 65500 \/ h > 65500) ->
     exists msg, check_dimensions w h = Throws (invalid_argument msg)
                 /\ resize_jpeg s w h = Throws (invalid_argument msg))
  /\ (~ (w <= 0 \/ h <= 0 \/ w > 65500 \/ h > 65500) ->
        check_dimensions w h = Returns tt)
  /\ check_dimensions 65500 65500 = Returns tt.
Proof.
  split; [|split].
  - intros H.
    destruct (check_dimensions_bad w h) as [msg Hmsg];
      [unfold dimensions_ok; lia|].
    exists msg. split; [exact Hmsg|].
    unfold resize_jpeg. rewrite (resize_jpeg_bad_dimensions s w h _ Hmsg). reflexivity.
  - intros H. apply check_dimensions_ok. unfold dimensions_ok. lia.
  - reflexivity.
Qed.

(** Case analysis of a run of [resize_jpeg], one stage after the other. *)
Ltac run_stage :=
  cbn [bind at_stage and_then fst snd app negb orb empty];
  rewrite ?base64_encode_rfc4648;
  match goal with
  | |- context [check_dimensions ?w ?h] =>
      destruct (check_dimensions w h) as [[]| | |]
  | |- context [base64_decode ?s] => destruct (base64_decode s) as [[|? ?]| | |]
  | |- context [imdecode ?d ?f] => destruct (imdecode d f) as [?| | |]
  | |- context [Mat_empty ?m] => destruct (Mat_empty m)
  | |- context [resize ?m ?d ?i] => destruct (resize m d i) as [?| | |]
  | |- context [imencode ?e ?m ?p] =>
      destruct (imencode e m p) as [[[|] [|? ?]]| | |]
  end.

Ltac stopped_at n :=
  exists n; split; [lia|]; split; [reflexivity|];
  split; [intros [out H]; first [discriminate H | reflexivity]
         | intros H; first [discriminate H | eexists; reflexivity]].

Lemma run_shape s w h :
  exists n, (n < 7)%nat
    /\ stages_entered s w h = firstn (S n) pipeline_order
    /\ ((exists out, resize_jpeg s w h = Returns out) <-> n = 6%nat).
Proof.
  unfold stages_entered, resize_jpeg, resize_jpeg_run.
  repeat run_stage;
    cbn [bind at_stage and_then fst snd app negb orb empty].
  all: try rewrite ?base64_encode_rfc4648.
  all: cbn [bind at_stage and_then fst snd app negb orb empty].
  all: try first [ stopped_at 0%nat | stopped_at 1%nat | stopped_at 2%nat | stopped_at 3%nat
          | stopped_at 4%nat | stopped_at 5%nat | stopped_at 6%nat ].
Qed.

(** C5. The statements of [resize_jpeg] run in the fixed order validate
    dimensions, text-decode, empty-check, image-decode, resample,
    image-encode, text-encode, each on what the one before it returned, and
    the first one that fails ends the run with its failure. The stages a
    run enters are a non-empty prefix of that list, the whole list exactly
    when the run returns. Invalid dimensions end the run in the validation
    with [std::invalid_argument], with the same result for every input
    string. After valid dimensions a failure of [base64_decode] is the
    result; else an empty decoded vector gives the [std::invalid_argument]
    of the empty check; else a failure of [cv::imdecode] or an empty image
    gives the image decoding error; else a failure of [cv::resize], called
    on that image with the target size and [INTER_AREA], is the result;
    else a failure of [cv::imencode], called on the resized image, or its
    refusal gives the encoding error; else the result is [base64_encode] of
    the buffer [cv::imencode] filled. *)
Theorem pipeline_stage_order (s : std_string) (w h : Z) :
  (exists n, (n < 7)%nat
     /\ stages_entered s w h = firstn (S n) pipeline_order
     /\ ((exists out, resize_jpeg s w h = Returns out) <-> n = 6%nat))
  /\ (~ dimensions_ok w h ->
        exists msg, forall s',
          resize_jpeg_run s' w h = ([ValidateDimensions], Throws (invalid_argument msg)))
  /\ (forall f, check_dimensions w h = fails f ->
        resize_jpeg_run s w h = ([ValidateDimensions], fails f))
  /\ (check_dimensions w h = Returns tt ->
      (forall f, base64_decode s = fails f ->
         resize_jpeg_run s w h = ([ValidateDimensions; TextDecode], fails f))
      /\ (base64_decode s = Returns [] ->
            resize_jpeg_run s w h
            = ([ValidateDimensions; TextDecode; EmptyCheck],
               Throws (invalid_argument "Invalid or empty base64 input")))
      /\ (forall data, base64_decode s = Returns data -> data <> [] ->
          (forall f, imdecode data IMREAD_COLOR = fails f ->
             resize_jpeg_run s w h
             = ([ValidateDimensions; TextDecode; EmptyCheck; ImageDecode], fails f))
          /\ (forall img, imdecode data IMREAD_COLOR = Returns img ->
              (Mat_empty img = true ->
                 resize_jpeg_run s w h
                 = ([ValidateDimensions; TextDecode; EmptyCheck; ImageDecode],
                    Throws (runtime_error
                      "Failed to decode JPEG image - invalid format or corrupted data")))
              /\ (Mat_empty img = false ->
                  (forall f, resize img (w, h) INTER_AREA = fails f ->
                     resize_jpeg_run s w h
                     = ([ValidateDimensions; TextDecode; EmptyCheck; ImageDecode;
                         Resample], fails f))
                  /\ (forall resized, resize img (w, h) INTER_AREA = Returns resized ->
                      (forall f, imencode ".jpg" resized encode_params = fails f ->
                         resize_jpeg_run s w h
                         = ([ValidateDimensions; TextDecode; EmptyCheck; ImageDecode;
                             Resample; ImageEncode], fails f))
                      /\ (forall ok buf,
                            imencode ".jpg" resized encode_params = Returns (ok, buf) ->
                            ok = false \/ buf = [] ->
                            resize_jpeg_run s w h
                            = ([ValidateDimensions; TextDecode; EmptyCheck; ImageDecode;
                                Resample; ImageEncode],
                               Throws (runtime_error
                                 "Failed to encode resized image to JPEG")))
                      /\ (forall buf,
                            imencode ".jpg" resized encode_params = Returns (true, buf) ->
                            buf <> [] ->
                            resize_jpeg_run s w h
                            = (pipeline_order, base64_encode buf))))))).
Proof.
  split; [apply run_shape|].
  split.
  { intros H. destruct (check_dimensions_bad w h H) as [msg Hmsg].
    exists msg. intros s'. apply resize_jpeg_bad_dimensions. exact Hmsg. }
  split.
  { intros f Hf. unfold resize_jpeg_run. rewrite Hf. destruct f; reflexivity. }
  intros Hd. unfold resize_jpeg_run. rewrite Hd. cbn [at_stage and_then].
  split; [intros f Hf; rewrite Hf; destruct f; reflexivity|].
  split; [intros Hs; rewrite Hs; reflexivity|].
  intros data Hs Hne. rewrite Hs.
  destruct data as [|d0 data]; [congruence|]. cbn [empty app].
  split; [intros f Hf; rewrite Hf; destruct f; reflexivity|].
  intros img Hi. rewrite Hi. cbn [bind].
  split; [intros He; rewrite He; reflexivity|].
  intros He. rewrite He. cbn [and_then].
  split; [intros f Hf; rewrite Hf; destruct f; reflexivity|].
  intros resized Hr. rewrite Hr. cbn [and_then].
  split; [intros f Hf; rewrite Hf; destruct f; reflexivity|].
  split.
  - intros ok buf Henc Hno. rewrite Henc. cbn [bind].
    destruct Hno as [-> | ->]; [reflexivity | destruct ok; reflexivity].
  - intros buf Henc Hb. rewrite Henc.
    destruct buf as [|b0 buf]; [congruence|]. reflexivity.
Qed.

(** ** Whitespace-only input *)

Lemma trim_left_spaces s : forallb Boost.is_space s = true -> Boost.trim_left s = [].
Proof.
  induction s as [|c l IH]; [reflexivity|]. cbn [forallb Boost.trim_left].
  intros H. apply andb_true_iff in H. destruct H as [Hc Hl].
  rewrite Hc. apply IH. exact Hl.
Qed.

Lemma cleaned_spaces s : forallb Boost.is_space s = true -> cleaned s = [].
Proof.
  intros H. unfold cleaned, Boost.trim, Boost.trim_right.
  rewrite (trim_left_spaces (rev s)).
  - reflexivity.
  - rewrite forallb_forall in *. intros c Hc. apply H. apply in_rev. exact Hc.
Qed.

Lemma base64_decode_spaces s :
  forallb Boost.is_space s = true -> base64_decode s = Returns [].
Proof.
  intros H. rewrite base64_decode_cleaned, cleaned_spaces by exact H. reflexivity.
Qed.

(** C4. On a string that consists of whitespace only (the empty string
    included) [base64_decode] returns the empty byte sequence without
    error; [resize_jpeg], once the dimensions have passed the guards,
    throws the [std::invalid_argument] of the empty check, and the handler
    answers 400. With any dimensions the handler answers 400. *)
Theorem empty_input_rejected (s : std_string) (w h : Z) :
  forallb Boost.is_space s = true ->
  base64_decode s = Returns []
  /\ (dimensions_ok w h ->
        resize_jpeg s w h = Throws (invalid_argument "Invalid or empty base64 input")
        /\ stages_entered s w h = [ValidateDimensions; TextDecode; EmptyCheck])
  /\ exists msg, on_resize_image s w h = Returns (mk_response 400 msg).
Proof.
  intros H. pose proof (base64_decode_spaces s H) as Hd.
  split; [exact Hd|]. split.
  - intros Hok. apply check_dimensions_ok in Hok.
    unfold resize_jpeg, stages_entered, resize_jpeg_run. rewrite Hok, Hd.
    split; reflexivity.
  - unfold on_resize_image, resize_jpeg, resize_jpeg_run. rewrite Hd.
    destruct (check_dimensions w h) as [[]|e| |] eqn:Hc.
    + eexists; reflexivity.
    + unfold check_dimensions in Hc.
      destruct ((w <=? 0) || (h <=? 0)); [inversion Hc; eexists; reflexivity|].
      destruct ((w >? 65500) || (h >? 65500)); inversion Hc; eexists; reflexivity.
    + unfold check_dimensions in Hc.
      destruct ((w <=? 0) || (h <=? 0)); [discriminate|].
      destruct ((w >? 65500) || (h >? 65500)); discriminate.
    + unfold check_dimensions in Hc.
      destruct ((w <=? 0) || (h <=? 0)); [discriminate|].
      destruct ((w >? 65500) || (h >? 65500)); discriminate.
Qed.

(** ** Characters outside the alphabet *)

Lemma base64_decode_rejected s :
  (exists c, In c (cleaned s) /\ accepted c = false) ->
  base64_decode s
  = Throws (runtime_error "attempt to decode a value not in base64 char set").
Proof.
  intros [c [Hin Hc]]. rewrite base64_decode_cleaned.
  destruct (cleaned s) as [|c0 l] eqn:E; [destruct Hin|].
  cbn [empty]. rewrite decode_range_spec.
  assert (Hf : forallb accepted (c0 :: l) = false).
  { destruct (forallb accepted (c0 :: l)) eqn:F; [|reflexivity].
    rewrite forallb_forall in F. rewrite (F c Hin) in Hc. discriminate. }
  rewrite Hf. reflexivity.
Qed.

(** C3, as the code has it. When the cleaned input holds a character that
    [to_6_bit] rejects (anything but A-Z, a-z, 0-9, [+], [/] and [=]) and
    the dimensions pass the guards, [resize_jpeg] throws the
    [std::runtime_error] that [base64_decode] makes of the Boost exception,
    and the handler answers 500, the server-error status. *)
Theorem malformed_text_is_server_error (s : std_string) (w h : Z) :
  dimensions_ok w h ->
  (exists c, In c (cleaned s) /\ accepted c = false) ->
  resize_jpeg s w h
  = Throws (runtime_error "attempt to decode a value not in base64 char set")
  /\ stages_entered s w h = [ValidateDimensions; TextDecode]
  /\ on_resize_image s w h
     = Returns (mk_response 500
         "Internal server error: attempt to decode a value not in base64 char set").
Proof.
  intros Hok Hbad. apply check_dimensions_ok in Hok.
  pose proof (base64_decode_rejected s Hbad) as Hd.
  assert (Hr : resize_jpeg_run s w h
               = ([ValidateDimensions; TextDecode],
                  Throws (runtime_error
                            "attempt to decode a value not in base64 char set"))).
  { unfold resize_jpeg_run. rewrite Hok, Hd. reflexivity. }
  unfold on_resize_image, resize_jpeg, stages_entered. rewrite Hr.
  repeat split.
Qed.
End PipelineFacts.

(** A run of [malformed_text_is_server_error]. *)
Lemma malformed_text_is_server_error_witness :
  resize_jpeg (cv := ToyCV) (str "not-valid-base64!@#$") 100 100
  = Throws (runtime_error "attempt to decode a value not in base64 char set")
  /\ stages_entered (cv := ToyCV) (str "not-valid-base64!@#$") 100 100
     = [ValidateDimensions; TextDecode]
  /\ on_resize_image (cv := ToyCV) (str "not-valid-base64!@#$") 100 100
     = Returns (mk_response 500
         "Internal server error: attempt to decode a value not in base64 char set").
Proof.
  apply (malformed_text_is_server_error (cv := ToyCV)).
  - unfold dimensions_ok. lia.
  - exists "-"%char. split; [vm_compute; tauto | reflexivity].
Defined.

(** C3 as stated fails: a string with characters outside the alphabet makes
    the handler answer 500, not 400; and a cleaned string whose length is
    not a multiple of four is decoded without any error. *)
Lemma malformed_text_counterexample :
  (exists c, In c (cleaned (str "not-valid-base64!@#$")) /\ accepted c = false)
  /\ on_resize_image (cv := ToyCV) (str "not-valid-base64!@#$") 100 100
     = Returns (mk_response 500
         "Internal server error: attempt to decode a value not in base64 char set")
  /\ (length (cleaned (str "QQ")) mod 4 = 2)%nat
  /\ base64_decode (str "QQ") = Returns [Byte.x41].
Proof.
  split; [exists "-"%char; split; [vm_compute; tauto | reflexivity]|].
  split; [vm_compute; reflexivity|].
  split; vm_compute; reflexivity.
Qed.

(** C10, at the failing input. For the cleaned string of two padding
    characters the iterators deliver one byte while [padding] is 2: the
    final [erase] starts before [result.begin()], which is undefined. *)
Theorem padding_erase_out_of_bounds :
  cleaned (str "==") = str "=="
  /\ decode_range (str "==") = Returns [Byte.x00]
  /\ padding_of (str "==") = 2
  /\ base64_decode (str "==") = Undefined.
Proof. repeat split; vm_compute; reflexivity. Qed.

(** ** Whitespace around and line breaks inside the text *)

Lemma trim_left_app_spaces ws s :
  Forall whitespace ws -> Boost.trim_left (ws ++ s) = Boost.trim_left s.
Proof.
  induction 1 as [|c l Hc Hl IH]; [reflexivity|].
  cbn [app Boost.trim_left]. rewrite Hc. exact IH.
Qed.

Lemma trim_right_app_spaces ws s :
  Forall whitespace ws -> Boost.trim_right (s ++ ws) = Boost.trim_right s.
Proof.
  intros H. unfold Boost.trim_right. rewrite rev_app_distr.
  rewrite trim_left_app_spaces by (apply Forall_rev; exact H). reflexivity.
Qed.

Lemma trim_left_app x y :
  Boost.trim_left (x ++ y)
  = match Boost.trim_left x with
    | [] => Boost.trim_left y
    | r => r ++ y
    end.
Proof.
  induction x as [|c l IH]; [reflexivity|].
  cbn [app Boost.trim_left]. destruct (Boost.is_space c); [exact IH | reflexivity].
Qed.

Lemma trim_right_cons a l :
  Boost.trim_right (a :: l)
  = match Boost.trim_right l with
    | [] => if Boost.is_space a then [] else [a]
    | r => a :: r
    end.
Proof.
  unfold Boost.trim_right. cbn [rev]. rewrite trim_left_app.
  destruct (Boost.trim_left (rev l)) as [|c r] eqn:E.
  - cbn [rev Boost.trim_left]. destruct (Boost.is_space a); reflexivity.
  - rewrite rev_app_distr. cbn [rev app].
    destruct (rev r ++ [c]) eqn:E'; [|reflexivity].
    apply app_eq_nil in E'. destruct E' as [_ E']. discriminate.
Qed.

Lemma trim_commute s :
  Boost.trim_left (Boost.trim_right s) = Boost.trim_right (Boost.trim_left s).
Proof.
  induction s as [|a l IH]; [reflexivity|].
  cbn [Boost.trim_left]. destruct (Boost.is_space a) eqn:Ha.
  - rewrite <- IH, trim_right_cons, Ha.
    destruct (Boost.trim_right l) as [|c r]; [reflexivity|].
    cbn [Boost.trim_left]. rewrite Ha. reflexivity.
  - rewrite trim_right_cons, Ha.
    destruct (Boost.trim_right l) as [|c r]; cbn [Boost.trim_left]; rewrite Ha; reflexivity.
Qed.

Lemma trim_between_spaces pre s post :
  Forall whitespace pre -> Forall whitespace post ->
  Boost.trim (pre ++ s ++ post) = Boost.trim s.
Proof.
  intros Hpre Hpost. unfold Boost.trim.
  rewrite app_assoc, trim_right_app_spaces by exact Hpost.
  rewrite trim_commute, trim_left_app_spaces by exact Hpre.
  symmetry. apply trim_commute.
Qed.

Lemma erase_remove_app x y c :
  erase_remove (x ++ y) c = erase_remove x c ++ erase_remove y c.
Proof. apply filter_app. Qed.

Lemma erase_remove_rev x c : erase_remove (rev x) c = rev (erase_remove x c).
Proof.
  induction x as [|a l IH]; [reflexivity|].
  cbn [rev]. rewrite erase_remove_app, IH. unfold erase_remove. cbn [filter].
  destruct (negb (Ascii.eqb a c)); cbn [rev app]; [reflexivity|].
  rewrite app_nil_r. reflexivity.
Qed.

Lemma trim_left_erase_remove s c :
  Boost.is_space c = true ->
  Boost.trim_left (erase_remove s c) = erase_remove (Boost.trim_left s) c.
Proof.
  intros Hc. induction s as [|a l IH]; [reflexivity|].
  unfold erase_remove in *. cbn [filter Boost.trim_left].
  destruct (Ascii.eqb_spec a c) as [->|Hne]; cbn [negb].
  - rewrite Hc. exact IH.
  - destruct (Boost.is_space a) eqn:Ha; cbn [Boost.trim_left]; rewrite Ha.
    + exact IH.
    + cbn [filter]. destruct (Ascii.eqb_spec a c); [contradiction|]. reflexivity.
Qed.

Lemma trim_erase_remove s c :
  Boost.is_space c = true ->
  Boost.trim (erase_remove s c) = erase_remove (Boost.trim s) c.
Proof.
  intros Hc. unfold Boost.trim, Boost.trim_right.
  rewrite <- erase_remove_rev, trim_left_erase_remove by exact Hc.
  rewrite <- erase_remove_rev, trim_left_erase_remove by exact Hc.
  reflexivity.
Qed.

Lemma cleaned_strip s : cleaned s = Boost.trim (strip s).
Proof.
  unfold cleaned, strip.
  rewrite !trim_erase_remove by reflexivity. reflexivity.
Qed.

Lemma strip_app x y : strip (x ++ y) = strip x ++ strip y.
Proof. unfold strip. rewrite !erase_remove_app. reflexivity. Qed.

Lemma strip_spaces ws : Forall whitespace ws -> Forall whitespace (strip ws).
Proof.
  intros H. unfold strip, erase_remove.
  rewrite Forall_forall in *. intros c Hc.
  apply filter_In in Hc. destruct Hc as [Hc _].
  apply filter_In in Hc. destruct Hc as [Hc _]. apply H. exact Hc.
Qed.

Lemma strip_inserted s s' : inserted line_break s s' -> strip s' = strip s.
Proof.
  induction 1 as [|c s s' H IH|c s s' Hc H IH]; [reflexivity| |].
  - change (c :: s') with ([c] ++ s'). change (c :: s) with ([c] ++ s).
    rewrite !strip_app, IH. reflexivity.
  - change (c :: s') with ([c] ++ s'). rewrite strip_app, IH.
    destruct Hc as [-> | ->]; reflexivity.
Qed.

Lemma cleaned_separators s pre mid post :
  Forall whitespace pre -> Forall whitespace post -> inserted line_break s mid ->
  cleaned (pre ++ mid ++ post) = cleaned s.
Proof.
  intros Hpre Hpost Hmid.
  rewrite !cleaned_strip, !strip_app, (strip_inserted s mid Hmid).
  apply trim_between_spaces; apply strip_spaces; assumption.
Qed.

(** C8, as the code has it. Whitespace before and after the text and line
    breaks (LF, CR) anywhere inside it do not change what [base64_decode]
    does: if [s'] is [s] with line breaks inserted, put between two runs of
    whitespace, decoding [s'] gives what decoding [s] gives. *)
Theorem separators_are_insignificant (s pre mid post : std_string) :
  Forall whitespace pre -> Forall whitespace post -> inserted line_break s mid ->
  base64_decode (pre ++ mid ++ post) = base64_decode s.
Proof.
  intros Hpre Hpost Hmid.
  rewrite (base64_decode_cleaned (pre ++ mid ++ post)), (base64_decode_cleaned s).
  rewrite (cleaned_separators s pre mid post Hpre Hpost Hmid). reflexivity.
Qed.

Lemma inserted_refl P s : inserted P s s.
Proof. induction s; constructor; assumption. Qed.

(** A run of [separators_are_insignificant]: the text of the test
    "Handle base64 with whitespace", further wrapped in blanks. *)
Lemma separators_are_insignificant_witness :
  base64_decode
    (str "  " ++ (str "SGVsbG8s" ++ [LF] ++ str "IFdvcmxk" ++ [CR; LF] ++ str "IQ==")
       ++ [LF; " "%char])
  = base64_decode (str "SGVsbG8sIFdvcmxkIQ==").
Proof.
  apply (separators_are_insignificant (str "SGVsbG8sIFdvcmxkIQ==")).
  - repeat constructor.
  - repeat constructor.
  - cbn. repeat first [ apply inserted_nil
                      | apply inserted_keep
                      | apply inserted_add; [unfold line_break; tauto|] ].
Defined.

(** C8 as stated fails: a space inserted inside a valid text makes
    [base64_decode] throw. *)
Lemma embedded_space_counterexample :
  inserted whitespace (str "QUJD") (str "QU JD")
  /\ base64_decode (str "QUJD") = Returns (bytes_of "ABC")
  /\ base64_decode (str "QU JD")
     = Throws (runtime_error "attempt to decode a value not in base64 char set").
Proof.
  split; [|split; vm_compute; reflexivity].
  cbn. do 2 apply inserted_keep. apply inserted_add; [reflexivity|].
  apply inserted_refl.
Qed.

(** ** Dimension fidelity, under a contract of OpenCV *)

Section Fidelity.
Context {cv : OpenCV}.

(** [cv::resize] with a non-empty source and a target size of positive
    width and height returns an image of exactly the target size. *)
Hypothesis resize_contract :
  forall src w h interpolation,
    Mat_empty src = false -> 0 < w -> 0 < h ->
    exists dst, resize src (w, h) interpolation = Returns dst
                /\ Mat_cols dst = w /\ Mat_rows dst = h.

(** What [cv::imencode] writes for an image within the JPEG size limit,
    [cv::imdecode] reads back with the same width and height. *)
Hypothesis jpeg_contract :
  forall img params buf,
    imencode ".jpg" img params = Returns (true, buf) -> buf <> [] ->
    dimensions_ok (Mat_cols img) (Mat_rows img) ->
    exists img', imdecode buf IMREAD_COLOR = Returns img'
                 /\ Mat_cols img' = Mat_cols img /\ Mat_rows img' = Mat_rows img.

End Fidelity.




Example toy_run :
  resize_jpeg (cv := ToyCV) (str "Cgo=") 5 5 = Returns (str "BQU=").
Proof. vm_compute. reflexivity. Qed.

(** A run of [empty_input_rejected] on a string of blanks and line breaks. *)
Lemma empty_input_rejected_witness :
  base64_decode [" "%char; LF; CR; " "%char] = Returns []
  /\ (dimensions_ok 100 100 ->
        resize_jpeg (cv := ToyCV) [" "%char; LF; CR; " "%char] 100 100
        = Throws (invalid_argument "Invalid or empty base64 input")
        /\ stages_entered (cv := ToyCV) [" "%char; LF; CR; " "%char] 100 100
           = [ValidateDimensions; TextDecode; EmptyCheck])
  /\ exists msg,
       on_resize_image (cv := ToyCV) [" "%char; LF; CR; " "%char] 100 100
       = Returns (mk_response 400 msg).
Proof.
  apply (empty_input_rejected (cv := ToyCV)). reflexivity.
Defined.

(** * Further properties of the codec and of the handler *)

(** ** [base64_decode] in closed form *)

Lemma octets_length vs : length (octets vs) = (3 * length vs / 4)%nat.
Proof.
  induction vs as [|a|a b|a b c|a b c d l IH] using list_ind4; try reflexivity.
  cbn [octets length]. rewrite IH.
  replace (3 * S (S (S (S (length l)))))%nat with (3 * length l + 3 * 4)%nat by lia.
  rewrite Nat.div_add by lia. lia.
Qed.

Lemma padding_of_bounds clean : 0 <= padding_of clean <= 2.
Proof.
  unfold padding_of.
  destruct (Ascii.eqb _ pad); destruct (_ && _); lia.
Qed.

Lemma padding_of_two c0 c1 :
  padding_of [c0; c1] = 2 <-> [c0; c1] = [pad; pad].
Proof.
  assert (E : padding_of [c0; c1]
              = (if Ascii.eqb c1 pad then 1 else 0) + (if Ascii.eqb c0 pad then 1 else 0))
    by reflexivity.
  rewrite E. clear E.
  destruct (Ascii.eqb_spec c1 pad) as [H1|H1];
    destruct (Ascii.eqb_spec c0 pad) as [H0|H0]; split; intros H;
    first [congruence | lia | inversion H; congruence].
Qed.

Lemma decoded_size clean :
  size (map byte.of_Z (octets (map sextet_of clean))) = Z.of_nat (3 * length clean / 4).
Proof. unfold size. rewrite !length_map, octets_length, length_map. reflexivity. Qed.

Lemma two_pads_spec clean : two_pads clean = true <-> clean = [pad; pad].
Proof.
  destruct clean as [|a [|b [|c l]]]; cbn [two_pads]; split; intros H;
    try discriminate.
  - apply andb_true_iff in H. destruct H as [Ha Hb].
    apply Ascii.eqb_eq in Ha, Hb. congruence.
  - injection H as -> ->. reflexivity.
Qed.

Lemma padding_fits clean :
  clean <> [] -> (length clean mod 4 <> 1)%nat -> two_pads clean = false ->
  padding_of clean <= Z.of_nat (3 * length clean / 4).
Proof.
  intros Hne Hmod Htwo. pose proof (padding_of_bounds clean) as Hb.
  destruct clean as [|a [|b [|c l]]].
  - congruence.
  - cbn in Hmod. congruence.
  - change (Z.of_nat (3 * length [a; b] / 4)) with 1.
    destruct (Z.eq_dec (padding_of [a; b]) 2) as [E|E]; [|lia].
    apply padding_of_two in E. apply two_pads_spec in E. congruence.
  - cbn [length].
    assert (2 <= 3 * S (S (S (length l))) / 4)%nat
      by (apply Nat.div_le_lower_bound; lia).
    lia.
Qed.

Lemma base64_decode_cases (s : std_string) :
  base64_decode s
  = if empty (cleaned s) then Returns []
    else if negb (forallb accepted (cleaned s)) then Throws codec_error
    else if (length (cleaned s) mod 4 =? 1)%nat || two_pads (cleaned s) then Undefined
    else Returns (firstn (3 * length (cleaned s) / 4 - Z.to_nat (padding_of (cleaned s)))
                         (decoded (cleaned s))).
Proof.
  rewrite base64_decode_cleaned.
  destruct (empty (cleaned s)) eqn:He; [reflexivity|].
  rewrite decode_range_spec.
  destruct (forallb accepted (cleaned s)); [|reflexivity].
  destruct (length (cleaned s) mod 4 =? 1)%nat eqn:Hm; [reflexivity|].
  cbn [negb orb bind try_catch]. fold (decoded (cleaned s)).
  unfold erase_tail. unfold decoded at 1 2. rewrite decoded_size.
  fold (decoded (cleaned s)).
  pose proof (padding_of_bounds (cleaned s)) as Hb.
  destruct (two_pads (cleaned s)) eqn:Htwo.
  - apply two_pads_spec in Htwo. rewrite Htwo. reflexivity.
  - assert (Hfit : padding_of (cleaned s) <= Z.of_nat (3 * length (cleaned s) / 4)).
    { apply padding_fits; [| |exact Htwo].
      - intros E. rewrite E in He. discriminate.
      - apply Nat.eqb_neq. exact Hm. }
    destruct (Z.leb_spec (padding_of (cleaned s)) (Z.of_nat (3 * length (cleaned s) / 4)));
      [|lia].
    cbn [try_catch]. do 2 f_equal. lia.
Qed.

Lemma accepted_nonempty (clean : std_string) :
  forallb accepted clean = false -> clean <> [].
Proof. intros H E. rewrite E in H. discriminate H. Qed.

(** X1. [base64_decode] in closed form, by its cleaned input (the input
    trimmed, without LF and CR). It returns the empty vector when the
    cleaned input is empty. It throws the [std::runtime_error] of the codec
    when the cleaned input holds a character [to_6_bit] rejects. On accepted
    characters it has no defined behaviour in two cases: a length of 1
    modulo 4, where the iterator dereferences [clean.end()], and the cleaned
    input of two padding characters, where the final [erase] is out of
    range. In every other case it returns the bytes the characters spell,
    six bits each, without as many trailing bytes as there are padding
    characters among the last two characters. *)
Theorem base64_decode_closed_form (s : std_string) :
  (cleaned s = [] -> base64_decode s = Returns [])
  /\ (forallb accepted (cleaned s) = false -> base64_decode s = Throws codec_error)
  /\ (forallb accepted (cleaned s) = true -> (length (cleaned s) mod 4 = 1)%nat ->
        base64_decode s = Undefined)
  /\ (cleaned s = [pad; pad] -> base64_decode s = Undefined)
  /\ (cleaned s <> [] -> forallb accepted (cleaned s) = true ->
        (length (cleaned s) mod 4 <> 1)%nat -> cleaned s <> [pad; pad] ->
        base64_decode s
        = Returns (firstn (3 * length (cleaned s) / 4 - Z.to_nat (padding_of (cleaned s)))
                          (decoded (cleaned s)))).
Proof.
  rewrite base64_decode_cases. repeat split.
  - intros ->. reflexivity.
  - intros Hbad. pose proof (accepted_nonempty _ Hbad) as Hne.
    destruct (cleaned s) as [|c l] eqn:E; [congruence|]. cbn [empty].
    rewrite Hbad. reflexivity.
  - intros Ha Hm.
    destruct (cleaned s) as [|c l] eqn:E; [discriminate Hm|]. cbn [empty].
    rewrite Ha. apply Nat.eqb_eq in Hm. rewrite Hm. reflexivity.
  - intros ->. reflexivity.
  - intros Hne Ha Hm Htwo.
    destruct (cleaned s) as [|c l] eqn:E; [congruence|]. cbn [empty].
    rewrite Ha. apply Nat.eqb_neq in Hm. rewrite Hm. cbn [negb orb].
    destruct (two_pads (c :: l)) eqn:T; [|reflexivity].
    apply two_pads_spec in T. congruence.
Qed.

Lemma base64_decode_throws_codec_error s e :
  base64_decode s = Throws e -> e = codec_error.
Proof.
  rewrite base64_decode_cases.
  destruct (empty (cleaned s)); [discriminate|].
  destruct (negb (forallb accepted (cleaned s)));
    [intros H; injection H as <-; reflexivity|].
  destruct ((length (cleaned s) mod 4 =? 1)%nat || two_pads (cleaned s)); discriminate.
Qed.

(** X2. [base64_decode] has no defined behaviour on exactly two kinds of
    input, both made of accepted characters only: a cleaned form whose
    length is 1 modulo 4 (the iterator dereferences [clean.end()]) and the
    cleaned form of two padding characters (the [erase] is out of range).
    The step budget of the model never runs out. *)
Theorem base64_decode_undefined_iff (s : std_string) :
  (base64_decode s = Undefined
   <-> forallb accepted (cleaned s) = true
       /\ ((length (cleaned s) mod 4 = 1)%nat \/ cleaned s = [pad; pad]))
  /\ base64_decode s <> Unfinished.
Proof.
  rewrite base64_decode_cases.
  destruct (empty (cleaned s)) eqn:He.
  { destruct (cleaned s); [|discriminate He].
    split; [|discriminate]. split; [discriminate|].
    intros [_ [H | H]]; discriminate H. }
  destruct (forallb accepted (cleaned s)) eqn:Ha; cbn [negb].
  2: { split; [|discriminate]. split; [discriminate|]. intros [H _]. discriminate H. }
  destruct (length (cleaned s) mod 4 =? 1)%nat eqn:Hm; cbn [orb].
  { apply Nat.eqb_eq in Hm. split; [|discriminate]. split; auto. }
  apply Nat.eqb_neq in Hm.
  destruct (two_pads (cleaned s)) eqn:Htwo.
  - apply two_pads_spec in Htwo. split; [|discriminate]. split; auto.
  - split; [|discriminate]. split; [discriminate|].
    intros [_ [H | H]]; [contradiction|].
    apply two_pads_spec in H. congruence.
Qed.

(** X3. [base64_decode] throws exactly when the cleaned input holds a
    character [to_6_bit] rejects, and the exception is then the
    [std::runtime_error] made of the Boost exception, never a
    [std::invalid_argument]. *)
Theorem base64_decode_throws_iff (s : std_string) (e : exn) :
  base64_decode s = Throws e
  <-> e = codec_error /\ forallb accepted (cleaned s) = false.
Proof.
  rewrite base64_decode_cases.
  destruct (empty (cleaned s)) eqn:He.
  { destruct (cleaned s); [|discriminate He].
    split; [discriminate|]. intros [_ H]. discriminate H. }
  destruct (forallb accepted (cleaned s)) eqn:Ha; cbn [negb].
  - destruct ((length (cleaned s) mod 4 =? 1)%nat || two_pads (cleaned s));
      (split; [discriminate|]); intros [_ H]; discriminate H.
  - split; [intros H; injection H as <-; auto|]. intros [-> _]. reflexivity.
Qed.

(** X4. When [base64_decode] returns, it returns three bytes for every four
    characters of the cleaned input (rounded down), less one byte for each of
    its last two characters that is a padding character. *)
Theorem base64_decode_length (s : std_string) (bytes : list byte) :
  base64_decode s = Returns bytes ->
  cleaned s <> [] ->
  Z.of_nat (length bytes)
  = Z.of_nat (3 * length (cleaned s) / 4) - padding_of (cleaned s).
Proof.
  rewrite base64_decode_cases. intros H Hne.
  destruct (empty (cleaned s)) eqn:He; [destruct (cleaned s); [congruence | discriminate He]|].
  destruct (negb (forallb accepted (cleaned s))); [discriminate H|].
  destruct (length (cleaned s) mod 4 =? 1)%nat eqn:Hm; [discriminate H|].
  apply Nat.eqb_neq in Hm.
  destruct (two_pads (cleaned s)) eqn:Htwo; [discriminate H|].
  cbn [orb] in H. injection H as <-.
  pose proof (padding_of_bounds (cleaned s)) as Hb.
  pose proof (padding_fits (cleaned s) Hne Hm Htwo) as Hfit.
  rewrite length_firstn. unfold decoded.
  rewrite !length_map, octets_length, length_map.
  set (n := (3 * length (cleaned s) / 4)%nat) in *.
  change (fst (Nat.divmod _ 3 0 3)) with n. lia.
Qed.

Lemma base64_decode_length_witness :
  Z.of_nat (length (bytes_of "Hello, World!"))
  = Z.of_nat (3 * length (cleaned (str "SGVsbG8sIFdvcmxkIQ==")) / 4)
    - padding_of (cleaned (str "SGVsbG8sIFdvcmxkIQ==")).
Proof.
  apply (base64_decode_length (str "SGVsbG8sIFdvcmxkIQ==")).
  - vm_compute. reflexivity.
  - vm_compute. discriminate.
Defined.

(** ** The two lookup tables *)

(** X5. The decoding table inverts the encoding table: every 6-bit value
    has a character under [from_6_bit], and [to_6_bit] maps that character
    back to the value. *)
Theorem alphabet_inverse (v : Z) :
  0 <= v < 64 ->
  exists c, Boost.from_6_bit v = Returns c /\ Boost.to_6_bit c = Returns v.
Proof.
  intros Hv. exists (alphabet v). split.
  - apply from_6_bit_alphabet. lia.
  - apply to_6_bit_alphabet. exact Hv.
Qed.

Lemma alphabet_inverse_witness :
  exists c, Boost.from_6_bit 62 = Returns c /\ Boost.to_6_bit c = Returns 62.
Proof. apply (alphabet_inverse 62). lia. Defined.

Lemma accepted_existsb c :
  accepted c = existsb (Ascii.eqb c) (Boost.from_6_bit_table ++ [pad]).
Proof. destruct c as [[] [] [] [] [] [] [] []]; vm_compute; reflexivity. Qed.

(** X6. [to_6_bit] accepts exactly the 64 characters of the encoding table
    and the padding character, with a value below 64; on every other
    character, the terminating NUL included, it raises the Boost exception. *)
Theorem to_6_bit_accepts (c : ascii) :
  ((In c Boost.from_6_bit_table \/ c = pad) <->
     exists v, 0 <= v < 64 /\ Boost.to_6_bit c = Returns v)
  /\ (~ (In c Boost.from_6_bit_table \/ c = pad) <->
        Boost.to_6_bit c = Throws Boost.invalid_base64_character).
Proof.
  assert (Hin : (In c Boost.from_6_bit_table \/ c = pad) <-> accepted c = true).
  { rewrite accepted_existsb, existsb_exists. split.
    - intros [H | ->].
      + exists c. split; [apply in_or_app; left; exact H | apply Ascii.eqb_refl].
      + exists pad. split; [apply in_or_app; right; left; reflexivity | reflexivity].
    - intros [x [Hx Hc]]. apply Ascii.eqb_eq in Hc. subst x.
      apply in_app_or in Hx. destruct Hx as [H | [H | []]]; [left; exact H | right; auto]. }
  rewrite Hin. rewrite to_6_bit_spec.
  destruct (accepted c) eqn:Ha; split; split; intros H.
  - exists (sextet_of c). split; [apply sextet_of_range; exact Ha | reflexivity].
  - reflexivity.
  - congruence.
  - discriminate H.
  - discriminate H.
  - destruct H as [v [_ H]]. discriminate H.
  - reflexivity.
  - discriminate.
Qed.

(** ** More on [base64_encode] *)

(** X7. [base64_encode] is injective: two byte sequences with the same
    text are equal. *)
Theorem base64_encode_injective (a b : list byte) :
  base64_encode a = base64_encode b -> a = b.
Proof.
  rewrite !base64_encode_rfc4648. intros H. injection H as H.
  apply (f_equal base64_decode) in H.
  rewrite !base64_decode_rfc4648 in H. injection H as H. exact H.
Qed.

Lemma base64_encode_injective_witness : bytes_of "ab" = bytes_of "ab".
Proof. apply base64_encode_injective. reflexivity. Defined.

Lemma rfc4648_step a b c l :
  rfc4648_encode (a :: b :: c :: l)
  = map alphabet (sextets [a; b; c]) ++ rfc4648_encode l.
Proof.
  unfold rfc4648_encode. rewrite pad_count_step. reflexivity.
Qed.

Lemma rfc4648_app a b :
  (length a mod 3 = 0)%nat ->
  rfc4648_encode (a ++ b) = rfc4648_encode a ++ rfc4648_encode b.
Proof.
  induction a as [|x|x y|x y z l IH] using list_ind3; intros H.
  - reflexivity.
  - discriminate H.
  - discriminate H.
  - cbn [app]. rewrite !rfc4648_step, IH, app_assoc; [reflexivity|].
    cbn [length] in H.
    replace (S (S (S (length l)))) with (length l + 1 * 3)%nat in H by lia.
    rewrite Nat.Div0.mod_add in H. exact H.
Qed.

(** X8. Encoding distributes over concatenation after a whole number of
    3-byte groups: when the length of [a] is a multiple of 3, the text of
    [a ++ b] is the text of [a] followed by the text of [b]. *)
Theorem base64_encode_app (a b : list byte) :
  (length a mod 3 = 0)%nat ->
  exists ta tb,
    base64_encode a = Returns ta /\ base64_encode b = Returns tb
    /\ base64_encode (a ++ b) = Returns (ta ++ tb).
Proof.
  intros H. exists (rfc4648_encode a), (rfc4648_encode b).
  rewrite !base64_encode_rfc4648, rfc4648_app by exact H. repeat split.
Qed.

Lemma base64_encode_app_witness :
  exists ta tb,
    base64_encode (bytes_of "abc") = Returns ta
    /\ base64_encode (bytes_of "de") = Returns tb
    /\ base64_encode (bytes_of "abc" ++ bytes_of "de") = Returns (ta ++ tb).
Proof. apply base64_encode_app. reflexivity. Defined.

Lemma alphabet_json_plain v : 0 <= v < 64 -> json_plain (alphabet v) = true.
Proof.
  intros Hv.
  apply (forall_below (fun v => json_plain (alphabet v)) 64%nat);
    [vm_compute; reflexivity | exact Hv].
Qed.

(** X9. The text [base64_encode] returns is made of characters of the
    encoding table followed by zero, one or two padding characters, as many
    as the length of the data lacks to a multiple of 3; none of its
    characters is whitespace, and each may stand unescaped in a JSON string. *)
Theorem base64_encode_shape (data : list byte) (text : std_string) :
  base64_encode data = Returns text ->
  exists body,
    text = body ++ repeat pad (pad_count data)
    /\ (pad_count data <= 2)%nat
    /\ Forall (fun c => In c Boost.from_6_bit_table) body
    /\ Forall (fun c => Boost.is_space c = false /\ json_plain c = true) text.
Proof.
  rewrite base64_encode_rfc4648. intros H. injection H as <-.
  exists (map alphabet (sextets data)).
  split; [reflexivity|]. split; [apply pad_count_le2|]. split.
  - apply Forall_map. eapply Forall_impl; [|apply sextets_range].
    intros v Hv. cbv beta in Hv. unfold alphabet. apply nth_In.
    assert (E : length Boost.from_6_bit_table = 64%nat) by reflexivity.
    rewrite E. lia.
  - unfold rfc4648_encode. apply Forall_app. split.
    + apply Forall_map. eapply Forall_impl; [|apply sextets_range].
      intros v Hv. split; [apply alphabet_plain; exact Hv | apply alphabet_json_plain; exact Hv].
    + apply Forall_forall. intros c Hc. apply repeat_spec in Hc. subst c.
      split; reflexivity.
Qed.

Lemma base64_encode_shape_witness :
  exists body,
    str "SGVsbG8sIFdvcmxkIQ==" = body ++ repeat pad (pad_count (bytes_of "Hello, World!"))
    /\ (pad_count (bytes_of "Hello, World!") <= 2)%nat
    /\ Forall (fun c => In c Boost.from_6_bit_table) body
    /\ Forall (fun c => Boost.is_space c = false /\ json_plain c = true)
              (str "SGVsbG8sIFdvcmxkIQ==").
Proof.
  apply (base64_encode_shape (bytes_of "Hello, World!")). vm_compute. reflexivity.
Defined.

(** ** Runs of [resize_jpeg] that return, and what the handler answers *)

Ltac stage_cases :=
  cbn [bind at_stage and_then fst snd app negb orb empty];
  match goal with
  | |- context [check_dimensions ?w ?h] =>
      destruct (check_dimensions w h) as [[]| | |] eqn:?
  | |- context [base64_decode ?s] =>
      destruct (base64_decode s) as [[|? ?]| | |] eqn:?
  | |- context [imdecode ?d ?f] => destruct (imdecode d f) as [?| | |] eqn:?
  | |- context [Mat_empty ?m] => destruct (Mat_empty m) eqn:?
  | |- context [resize ?m ?d ?i] => destruct (resize m d i) as [?| | |] eqn:?
  | |- context [imencode ?e ?m ?p] =>
      destruct (imencode e m p) as [[[|] [|? ?]]| | |] eqn:?
  end.

Section Handler.
Context {cv : OpenCV}.

Lemma resize_jpeg_returns_inv (s : std_string) (w h : Z) (out : std_string) :
  resize_jpeg s w h = Returns out ->
  exists data img resized buf,
    dimensions_ok w h
    /\ base64_decode s = Returns data /\ data <> []
    /\ imdecode data IMREAD_COLOR = Returns img /\ Mat_empty img = false
    /\ resize img (w, h) INTER_AREA = Returns resized
    /\ imencode ".jpg" resized encode_params = Returns (true, buf) /\ buf <> []
    /\ out = rfc4648_encode buf.
Proof.
  unfold resize_jpeg, resize_jpeg_run.
  repeat stage_cases;
    cbn [bind at_stage and_then fst snd app negb orb empty];
    try (intros H; discriminate H).
  rewrite base64_encode_rfc4648. cbn [at_stage snd]. intros H. injection H as <-.
  do 4 eexists. split; [|repeat split; try eassumption; discriminate].
  destruct (Z_lt_le_dec 0 w), (Z_lt_le_dec 0 h),
    (Z_le_gt_dec w 65500), (Z_le_gt_dec h 65500);
    try (unfold dimensions_ok; lia).
  all: exfalso; destruct (check_dimensions_bad w h) as [msg Hmsg];
    [unfold dimensions_ok; lia | congruence].
Qed.

(** X10. [resize_jpeg] returns exactly when every stage succeeds: the
    dimensions pass the guards, the text decodes to a non-empty byte
    sequence that [cv::imdecode] turns into a non-empty image, [cv::resize]
    returns, and [cv::imencode] reports success with a non-empty buffer. The
    value returned is then the RFC 4648 text of that buffer. *)
Theorem resize_jpeg_returns_iff (s : std_string) (w h : Z) (out : std_string) :
  resize_jpeg s w h = Returns out
  <-> exists data img resized buf,
        dimensions_ok w h
        /\ base64_decode s = Returns data /\ data <> []
        /\ imdecode data IMREAD_COLOR = Returns img /\ Mat_empty img = false
        /\ resize img (w, h) INTER_AREA = Returns resized
        /\ imencode ".jpg" resized encode_params = Returns (true, buf) /\ buf <> []
        /\ out = rfc4648_encode buf.
Proof.
  split.
  - apply resize_jpeg_returns_inv.
  - intros [data [img [resized [buf [Hok [Hs [Hne [Hi [He [Hr [Henc [Hb ->]]]]]]]]]]]].
    unfold resize_jpeg, resize_jpeg_run.
    rewrite (check_dimensions_ok w h Hok), Hs.
    cbn [at_stage and_then].
    destruct data as [|d0 data]; [congruence|]. cbn [empty].
    rewrite Hi. cbn [bind]. rewrite He, Hr, Henc. cbn [bind negb orb].
    destruct buf as [|b0 buf]; [congruence|]. cbn [empty].
    rewrite base64_encode_rfc4648. reflexivity.
Qed.

(** X11. A text that [resize_jpeg] returned is a valid input of
    [resize_jpeg]: it decodes, without error, to the non-empty buffer the
    image encoder produced, and a second call with valid dimensions gets
    past the text decoding and the empty check to the image decoder. *)
Theorem output_is_valid_input (s : std_string) (w h : Z) (out : std_string) (w' h' : Z) :
  resize_jpeg s w h = Returns out ->
  dimensions_ok w' h' ->
  exists buf rest,
    base64_decode out = Returns buf /\ buf <> []
    /\ stages_entered out w' h'
       = [ValidateDimensions; TextDecode; EmptyCheck; ImageDecode] ++ rest.
Proof.
  intros H Hok. apply resize_jpeg_returns_inv in H.
  destruct H as [data [img [resized [buf [_ [_ [_ [_ [_ [_ [_ [Hb ->]]]]]]]]]]]].
  pose proof (base64_decode_rfc4648 buf) as Hd.
  exists buf. unfold stages_entered, resize_jpeg_run.
  rewrite (check_dimensions_ok w' h' Hok), Hd.
  destruct buf as [|b0 buf]; [congruence|].
  cbn [at_stage and_then empty].
  destruct (imdecode (b0 :: buf) IMREAD_COLOR) as [img'| | |]; cbn [bind].
  2-4: eexists; split; [reflexivity|]; split; [discriminate | reflexivity].
  destruct (Mat_empty img').
  1: eexists; split; [reflexivity|]; split; [discriminate | reflexivity].
  destruct (resize img' (w', h') INTER_AREA) as [r| | |]; cbn [bind and_then].
  2-4: eexists; split; [reflexivity|]; split; [discriminate | reflexivity].
  destruct (imencode ".jpg" r encode_params) as [[ok b]| | |]; cbn [bind and_then].
  2-4: eexists; split; [reflexivity|]; split; [discriminate | reflexivity].
  destruct (negb ok || empty b); cbn [and_then fst snd app].
  1: eexists; split; [reflexivity|]; split; [discriminate | reflexivity].
  eexists; split; [reflexivity|]; split; [discriminate | reflexivity].
Qed.

(** X12. The first guard comes first: when a dimension is not positive the
    handler answers 400 with the message of the first guard, whatever the
    input text and even if the other dimension exceeds 65500; when both are
    positive and one exceeds 65500 it answers 400 with the message of the
    second guard. *)
Theorem dimension_messages (s : std_string) (w h : Z) :
  ((w <= 0 \/ h <= 0) ->
     on_resize_image s w h
     = Returns (mk_response 400
         "Invalid input: Target dimensions must be positive integers"))
  /\ (0 < w -> 0 < h -> (w > 65500 \/ h > 65500) ->
        on_resize_image s w h
        = Returns (mk_response 400
            "Invalid input: Target dimensions exceed maximum JPEG size")).
Proof.
  unfold on_resize_image, resize_jpeg, resize_jpeg_run, check_dimensions.
  split.
  - intros H.
    assert (E : (w <=? 0) || (h <=? 0) = true).
    { apply orb_true_iff. destruct H; [left | right]; apply Z.leb_le; assumption. }
    rewrite E. reflexivity.
  - intros Hw Hh H.
    assert (E1 : (w <=? 0) || (h <=? 0) = false).
    { apply orb_false_iff. split; apply Z.leb_gt; assumption. }
    assert (E2 : (w >? 65500) || (h >? 65500) = true).
    { apply orb_true_iff. rewrite !Z.gtb_ltb.
      destruct H; [left | right]; apply Z.ltb_lt; lia. }
    rewrite E1, E2. reflexivity.
Qed.

(** X13. Bytes that are not an image are a server error: for a non-empty
    byte sequence that [cv::imdecode] turns into an empty image, the handler
    answers 500 on its base64 text, with the message of the image decoder
    check, after the stages up to the image decoding. *)
Theorem not_an_image_is_server_error (data : list byte) (w h : Z) (img : Mat) :
  dimensions_ok w h -> data <> [] ->
  imdecode data IMREAD_COLOR = Returns img -> Mat_empty img = true ->
  exists text,
    base64_encode data = Returns text
    /\ resize_jpeg text w h
       = Throws (runtime_error
           "Failed to decode JPEG image - invalid format or corrupted data")
    /\ stages_entered text w h = [ValidateDimensions; TextDecode; EmptyCheck; ImageDecode]
    /\ on_resize_image text w h
       = Returns (mk_response 500
           "Internal server error: Failed to decode JPEG image - invalid format or corrupted data").
Proof.
  intros Hok Hne Hi He. exists (rfc4648_encode data).
  split; [apply base64_encode_rfc4648|].
  assert (Hr : resize_jpeg_run (rfc4648_encode data) w h
               = ([ValidateDimensions; TextDecode; EmptyCheck; ImageDecode],
                  Throws (runtime_error
                    "Failed to decode JPEG image - invalid format or corrupted data"))).
  { unfold resize_jpeg_run.
    rewrite (check_dimensions_ok w h Hok), base64_decode_rfc4648.
    destruct data as [|d0 data]; [congruence|].
    cbn [at_stage and_then empty]. rewrite Hi. cbn [bind]. rewrite He. reflexivity. }
  unfold on_resize_image, resize_jpeg, stages_entered. rewrite Hr. repeat split.
Qed.

End Handler.

Lemma output_is_valid_input_witness :
  exists buf rest,
    base64_decode (str "BQU=") = Returns buf /\ buf <> []
    /\ stages_entered (cv := ToyCV) (str "BQU=") 7 3
       = [ValidateDimensions; TextDecode; EmptyCheck; ImageDecode] ++ rest.
Proof.
  apply (output_is_valid_input (cv := ToyCV) (str "Cgo=") 5 5 (str "BQU=") 7 3).
  - vm_compute. reflexivity.
  - unfold dimensions_ok. lia.
Defined.

(** Six bytes that are no image, as in the test "Non-JPEG data throws
    exception", on the stand-in codec. *)
Lemma not_an_image_is_server_error_witness :
  exists text,
    base64_encode [Byte.xff; Byte.x00; Byte.xff; Byte.x00; Byte.xaa; Byte.xbb]
    = Returns text
    /\ resize_jpeg (cv := ToyCV) text 100 100
       = Throws (runtime_error
           "Failed to decode JPEG image - invalid format or corrupted data")
    /\ stages_entered (cv := ToyCV) text 100 100
       = [ValidateDimensions; TextDecode; EmptyCheck; ImageDecode]
    /\ on_resize_image (cv := ToyCV) text 100 100
       = Returns (mk_response 500
           "Internal server error: Failed to decode JPEG image - invalid format or corrupted data").
Proof.
  apply (not_an_image_is_server_error (cv := ToyCV)
           [Byte.xff; Byte.x00; Byte.xff; Byte.x00; Byte.xaa; Byte.xbb]
           100 100 (0, 0)).
  - unfold dimensions_ok. lia.
  - discriminate.
  - reflexivity.
  - reflexivity.
Defined.

Section ClientErrors.
Context {cv : OpenCV}.

(** The calls into OpenCV never throw [std::invalid_argument] (they signal
    failures with [cv::Exception]). *)
Hypothesis imdecode_throws :
  forall buf flags m, imdecode buf flags <> Throws (invalid_argument m).
Hypothesis resize_throws :
  forall src dsize i m, resize src dsize i <> Throws (invalid_argument m).
Hypothesis imencode_throws :
  forall ext img params m, imencode ext img params <> Throws (invalid_argument m).

Lemma check_dimensions_cases w h :
  (dimensions_ok w h /\ check_dimensions w h = Returns tt)
  \/ (~ dimensions_ok w h /\ exists msg, check_dimensions w h = Throws (invalid_argument msg)).
Proof.
  destruct (Z_lt_le_dec 0 w), (Z_lt_le_dec 0 h),
    (Z_le_gt_dec w 65500), (Z_le_gt_dec h 65500).
  1: left; split; [unfold dimensions_ok; lia | apply check_dimensions_ok; unfold dimensions_ok; lia].
  all: right; split; [unfold dimensions_ok; lia | apply check_dimensions_bad; unfold dimensions_ok; lia].
Qed.

(** X14. The handler answers 400 in two cases only: the dimensions fail the
    guards, or the text decodes to no bytes at all. Every other failure of
    the pipeline, a malformed text included, is answered with 500. *)
Theorem client_error_iff (s : std_string) (w h : Z) :
  (exists msg, on_resize_image s w h = Returns (mk_response 400 msg))
  <-> (~ dimensions_ok w h \/ base64_decode s = Returns []).
Proof.
  unfold on_resize_image, resize_jpeg, resize_jpeg_run.
  destruct (check_dimensions_cases w h) as [[Hok Hc] | [Hbad [m Hc]]]; rewrite Hc.
  2: { cbn [at_stage and_then snd]. split; [intros _; left; exact Hbad|].
       intros _. eexists; reflexivity. }
  cbn [at_stage and_then].
  destruct (base64_decode s) as [[|d0 data]|e| |] eqn:Hs; cbn [empty and_then snd].
  - split; [intros _; right; reflexivity | intros _; eexists; reflexivity].
  - assert (Hno : ~ (~ dimensions_ok w h \/ Returns (d0 :: data) = Returns []))
      by (intros [H | H]; [contradiction | discriminate H]).
    split; [|intros H; contradiction].
    intros [msg H]. exfalso.
    destruct (imdecode (d0 :: data) IMREAD_COLOR) as [img|e| |] eqn:Hi; cbn [bind] in H.
    2: { destruct e; try discriminate H. exact (imdecode_throws _ _ _ Hi). }
    2-3: discriminate H.
    destruct (Mat_empty img); [discriminate H|].
    destruct (resize img (w, h) INTER_AREA) as [r|e| |] eqn:Hr; cbn [and_then snd] in H.
    2: { destruct e; try discriminate H. exact (resize_throws _ _ _ _ Hr). }
    2-3: discriminate H.
    destruct (imencode ".jpg" r encode_params) as [[ok b]|e| |] eqn:He;
      cbn [bind and_then snd] in H.
    2: { destruct e; try discriminate H. exact (imencode_throws _ _ _ _ He). }
    2-3: discriminate H.
    destruct (negb ok || empty b); cbn [and_then snd] in H; [discriminate H|].
    rewrite base64_encode_rfc4648 in H. discriminate H.
  - apply base64_decode_throws_codec_error in Hs. subst e.
    split; [intros [msg H]; discriminate H|].
    intros [H | H]; [contradiction | discriminate H].
  - split; [intros [msg H]; discriminate H|].
    intros [H | H]; [contradiction | discriminate H].
  - split; [intros [msg H]; discriminate H|].
    intros [H | H]; [contradiction | discriminate H].
Qed.
End ClientErrors.

Lemma ToyCV_throws_imdecode :
  forall buf flags m,
    imdecode (OpenCV := ToyCV) buf flags <> Throws (invalid_argument m).
Proof.
  intros buf flags m H. cbn in H.
  destruct buf as [|a [|b [|c l]]]; discriminate H.
Defined.

Lemma ToyCV_throws_resize :
  forall src dsize i m,
    resize (OpenCV := ToyCV) src dsize i <> Throws (invalid_argument m).
Proof.
  intros src dsize i m H. cbn in H.
  destruct (toy_empty src || (fst dsize <=? 0) || (snd dsize <=? 0)); discriminate H.
Defined.

Lemma ToyCV_throws_imencode :
  forall ext img params m,
    imencode (OpenCV := ToyCV) ext img params <> Throws (invalid_argument m).
Proof.
  intros ext img params m H. cbn in H.
  destruct ((0 <? fst img) && (fst img <? 256) && (0 <? snd img) && (snd img <? 256));
    discriminate H.
Defined.

Lemma client_error_iff_witness :
  (exists msg, on_resize_image (cv := ToyCV) (str "Cgo=") 0 5
               = Returns (mk_response 400 msg))
  <-> (~ dimensions_ok 0 5 \/ base64_decode (str "Cgo=") = Returns []).
Proof.
  apply (client_error_iff (cv := ToyCV) ToyCV_throws_imdecode ToyCV_throws_resize
           ToyCV_throws_imencode).
Defined.

(** ** [boost::trim] and the cleaning of the input *)

Lemma trim_left_split s :
  exists pre, s = pre ++ Boost.trim_left s /\ Forall whitespace pre.
Proof.
  induction s as [|c l [pre [E Hpre]]]; [exists []; split; [reflexivity | constructor]|].
  cbn [Boost.trim_left]. destruct (Boost.is_space c) eqn:Hc.
  - exists (c :: pre). split; [cbn [app]; congruence | constructor; assumption].
  - exists []. split; [reflexivity | constructor].
Qed.

Lemma trim_left_head s c r : Boost.trim_left s = c :: r -> Boost.is_space c = false.
Proof.
  induction s as [|a l IH]; [discriminate|].
  cbn [Boost.trim_left]. destruct (Boost.is_space a) eqn:Ha; [exact IH|].
  intros H. injection H as <- _. exact Ha.
Qed.

Lemma trim_right_split s :
  exists post, s = Boost.trim_right s ++ post /\ Forall whitespace post.
Proof.
  destruct (trim_left_split (rev s)) as [pre [E Hpre]].
  exists (rev pre). split; [|apply Forall_rev; exact Hpre].
  unfold Boost.trim_right. rewrite <- rev_app_distr, <- E, rev_involutive. reflexivity.
Qed.

Lemma trim_right_last s r c : Boost.trim_right s = r ++ [c] -> Boost.is_space c = false.
Proof.
  unfold Boost.trim_right. intros H.
  apply (f_equal (@rev ascii)) in H. rewrite rev_involutive, rev_app_distr in H.
  cbn [rev app] in H. eapply trim_left_head. exact H.
Qed.

(** X15. [boost::trim] removes a run of whitespace at each end and nothing
    else: the string is its trimmed form between two runs of whitespace, and
    the trimmed form neither begins nor ends with a whitespace character. *)
Theorem trim_spec (s : std_string) :
  (exists pre post,
     s = pre ++ Boost.trim s ++ post /\ Forall whitespace pre /\ Forall whitespace post)
  /\ (forall c r, Boost.trim s = c :: r -> Boost.is_space c = false)
  /\ (forall r c, Boost.trim s = r ++ [c] -> Boost.is_space c = false).
Proof.
  split; [|split].
  - destruct (trim_right_split s) as [post [E Hpost]].
    destruct (trim_left_split (Boost.trim_right s)) as [pre [E' Hpre]].
    exists pre, post. split; [|split; assumption].
    unfold Boost.trim. rewrite app_assoc, <- E'. exact E.
  - intros c r. unfold Boost.trim. apply trim_left_head.
  - intros r c. unfold Boost.trim. rewrite trim_commute. apply trim_right_last.
Qed.

Lemma trim_left_fixed s :
  (forall c r, s = c :: r -> Boost.is_space c = false) -> Boost.trim_left s = s.
Proof.
  destruct s as [|c r]; [reflexivity|]. intros H.
  cbn [Boost.trim_left]. rewrite (H c r eq_refl). reflexivity.
Qed.

Lemma trim_idempotent s : Boost.trim (Boost.trim s) = Boost.trim s.
Proof.
  assert (Hhead : forall c r, Boost.trim s = c :: r -> Boost.is_space c = false)
    by (intros c r; unfold Boost.trim; apply trim_left_head).
  assert (Hlast : forall r c, Boost.trim s = r ++ [c] -> Boost.is_space c = false)
    by (intros r c; unfold Boost.trim; rewrite trim_commute; apply trim_right_last).
  unfold Boost.trim at 1. rewrite trim_commute.
  rewrite (trim_left_fixed (Boost.trim s)) by exact Hhead.
  unfold Boost.trim_right. rewrite trim_left_fixed; [apply rev_involutive|].
  intros c r E. apply (Hlast (rev r) c).
  apply (f_equal (@rev ascii)) in E. rewrite rev_involutive in E. exact E.
Qed.

Lemma erase_remove_comm s c d :
  erase_remove (erase_remove s c) d = erase_remove (erase_remove s d) c.
Proof.
  unfold erase_remove. induction s as [|a l IH]; [reflexivity|].
  cbn [filter].
  destruct (negb (Ascii.eqb a c)) eqn:Hc; destruct (negb (Ascii.eqb a d)) eqn:Hd;
    cbn [filter]; rewrite ?Hc, ?Hd, IH; reflexivity.
Qed.

Lemma erase_remove_idempotent s c : erase_remove (erase_remove s c) c = erase_remove s c.
Proof.
  unfold erase_remove. induction s as [|a l IH]; [reflexivity|].
  cbn [filter]. destruct (negb (Ascii.eqb a c)) eqn:Hc; cbn [filter]; rewrite ?Hc, IH;
    reflexivity.
Qed.

Lemma strip_idempotent s : strip (strip s) = strip s.
Proof.
  unfold strip.
  rewrite (erase_remove_comm (erase_remove s LF) CR LF).
  rewrite (erase_remove_idempotent s LF).
  apply erase_remove_idempotent.
Qed.

Lemma strip_trim s : strip (Boost.trim s) = Boost.trim (strip s).
Proof. unfold strip. rewrite !trim_erase_remove by reflexivity. reflexivity. Qed.

(** X16. Cleaning is idempotent and [base64_decode] depends on its input
    through the cleaned form only: decoding the trimmed input without its
    LF and CR gives what decoding the input gives. *)
Theorem base64_decode_of_cleaned (s : std_string) :
  cleaned (cleaned s) = cleaned s
  /\ base64_decode (cleaned s) = base64_decode s.
Proof.
  assert (E : cleaned (cleaned s) = cleaned s).
  { rewrite (cleaned_strip (cleaned s)), (cleaned_strip s).
    rewrite strip_trim, strip_idempotent. apply trim_idempotent. }
  split; [exact E|].
  rewrite (base64_decode_cleaned (cleaned s)), (base64_decode_cleaned s), E. reflexivity.
Qed.
